(** * kleio.core.wrapper: the trial consumer

    A shallow embedding of [src/kleio/core/wrapper.py]: the [Consumer]
    class ([consume], [_consume], [launch_process]) and the three
    coroutines it drives on a private asyncio loop ([update],
    [log_stream], [execute]).

    Python objects are explicit state: one shared trial object, the
    event loop's tasks, the file system, and a chronological trace of
    every effect the module performs.  Exceptions are an outcome of the
    state monad [M].  What the outside world does while the loop runs
    (the child writes a line, closes a pipe, exits; a timer fires; a
    signal arrives) is a script of events consumed in order. *)

From Stdlib Require Import ZArith String Ascii List DecimalString Lia Bool.
From stdpp Require Import base gmap strings list.

Open Scope Z_scope.

(** ** Python built-ins used by the module *)

Module Py.

(** Code point of a character. *)
Definition ord (c : ascii) : Z := Z.of_nat (nat_of_ascii c).

(** [str.isspace] on one character, for code points below 256:
    TAB..CR, FS..US, SPACE, NEL and NBSP. *)
Definition isspace (c : ascii) : bool :=
  let n := ord c in
  ((9 <=? n) && (n <=? 13)) || ((28 <=? n) && (n <=? 32))
  || (n =? 133) || (n =? 160).

Definition is_empty (s : string) : bool :=
  match s with EmptyString => true | String _ _ => false end.

(** [s.split(sep)] for a one-character separator: cut at every
    occurrence of [sep]; adjacent separators give empty pieces and the
    empty string gives one empty piece. *)
Fixpoint split (sep : ascii) (s : string) : list string :=
  match s with
  | EmptyString => [EmptyString]
  | String c s' =>
      if Ascii.eqb c sep then EmptyString :: split sep s'
      else match split sep s' with
           | w :: ws => String c w :: ws
           | [] => [String c EmptyString]
           end
  end.

(** [sep.join(pieces)]. *)
Fixpoint join (sep : ascii) (pieces : list string) : string :=
  match pieces with
  | [] => EmptyString
  | [w] => w
  | w :: ws => w +:+ String sep (join sep ws)
  end.

(** [s.split()] with no separator: maximal runs of non-whitespace
    characters; [acc] is the word being read. *)
Fixpoint split_whitespace_from (acc : string) (s : string) : list string :=
  match s with
  | EmptyString => if is_empty acc then [] else [acc]
  | String c s' =>
      if isspace c
      then (if is_empty acc then split_whitespace_from EmptyString s'
            else acc :: split_whitespace_from EmptyString s')
      else split_whitespace_from (acc +:+ String c EmptyString) s'
  end.

Definition split_whitespace (s : string) : list string :=
  split_whitespace_from EmptyString s.

(** [s.rstrip()]: drop the trailing whitespace. *)
Fixpoint rstrip (s : string) : string :=
  match s with
  | EmptyString => EmptyString
  | String c s' =>
      let r := rstrip s' in
      if is_empty r && isspace c then EmptyString else String c r
  end.

(** Bytes are strings of 8-bit characters.  [data.decode('ascii')]
    fails on any byte above 127. *)
Fixpoint all_ascii (data : string) : bool :=
  match data with
  | EmptyString => true
  | String c data' => (ord c <? 128) && all_ascii data'
  end.

Definition decode_ascii (data : string) : option string :=
  if all_ascii data then Some data else None.

(** [str(n)] for an integer. *)
Definition str (n : Z) : string := NilZero.string_of_int (Z.to_int n).

(** [s.lower()] on the ASCII letters. *)
Definition lower_char (c : ascii) : ascii :=
  let n := ord c in
  if (65 <=? n) && (n <=? 90) then ascii_of_nat (Z.to_nat (n + 32)) else c.

Fixpoint lower (s : string) : string :=
  match s with
  | EmptyString => EmptyString
  | String c s' => String (lower_char c) (lower s')
  end.

(** [os.path.join(a, b)] of [posixpath]. *)
Definition ends_with_slash (a : string) : bool :=
  match String.get (String.length a - 1) a with
  | Some c => Ascii.eqb c "/"
  | None => false
  end.

Definition os_path_join (a b : string) : string :=
  match b with
  | String "/" _ => b
  | _ => if is_empty a || ends_with_slash a then a +:+ b
         else a +:+ "/" +:+ b
  end.

(** The directories [os.makedirs(path)] leaves in place: [path] itself
    and every non-empty prefix of it that ends before a "/", outermost
    first; [acc] is the part of the path already read. *)
Fixpoint ancestors_from (acc : string) (path : string) : list string :=
  match path with
  | EmptyString => [acc]
  | String c path' =>
      (if Ascii.eqb c "/" && negb (is_empty acc) then [acc] else [])
      ++ ancestors_from (acc +:+ String c EmptyString) path'
  end.

Definition ancestors (path : string) : list string :=
  ancestors_from EmptyString path.

(** The [logging] module's numeric levels and its level-name table. *)
Definition CRITICAL := 50.
Definition ERROR := 40.
Definition WARNING := 30.
Definition INFO := 20.
Definition DEBUG := 10.
Definition NOTSET := 0.

Definition _levelToName : gmap Z string :=
  list_to_map [(CRITICAL, "CRITICAL"); (ERROR, "ERROR"); (WARNING, "WARNING");
               (INFO, "INFO"); (DEBUG, "DEBUG"); (NOTSET, "NOTSET")]%string.

(** [logging.getLevelName(level)] for a numeric level, over a table
    that [logging.addLevelName] may have extended. *)
Definition getLevelName (names : gmap Z string) (level : Z) : string :=
  match names !! level with
  | Some name => name
  | None => "Level " +:+ str level
  end.

End Py.

(** ** The trial handle *)

(** Modelled from the spec: the trial class ([kleio.core.trial.base]) is
    imported by the module and is not part of these sources.  The spec
    gives its fields (identity, short id, command line, status, two
    append-only output buffers, last heartbeat) and its six statuses. *)
Module Trial.

Inductive Status :=
| pending | reserved | running | completed | broken | suspended.

Record t := mk {
  id : string;
  short_id : string;
  commandline : string;
  status : Status;
  _stdout : list string;
  _stderr : list string;
  last_heartbeat : option Z
}.

Definition with_status (s : Status) (x : t) : t :=
  mk (id x) (short_id x) (commandline x) s (_stdout x) (_stderr x)
     (last_heartbeat x).

Definition with_stdout (l : list string) (x : t) : t :=
  mk (id x) (short_id x) (commandline x) (status x) l (_stderr x)
     (last_heartbeat x).

Definition with_stderr (l : list string) (x : t) : t :=
  mk (id x) (short_id x) (commandline x) (status x) (_stdout x) l
     (last_heartbeat x).

Definition with_heartbeat (now : Z) (x : t) : t :=
  mk (id x) (short_id x) (commandline x) (status x) (_stdout x) (_stderr x)
     (Some now).

End Trial.

#[global] Instance Status_eq_dec : EqDecision Trial.Status.
Proof. solve_decision. Defined.

(** ** Exceptions, tasks, events, effects *)

(** The exception classes the module names, and [Error] for any other. *)
Inductive exn :=
| KeyboardInterrupt
| SystemExit (code : Z)
| CancelledError
| RuntimeError (msg : string)
| UnicodeDecodeError
| ValueError
| Error (name : string).

#[global] Instance exn_eq_dec : EqDecision exn.
Proof. solve_decision. Defined.

Inductive stream := Stdout | Stderr.

(** The four tasks [execute] puts on the loop: [tasks[0]], [tasks[1]],
    [tasks[2]] and [update_task]. *)
Inductive task := LogStdout | LogStderr | ProcWait | Update.

#[global] Instance task_eq_dec : EqDecision task.
Proof. solve_decision. Defined.

Definition collector (s : stream) : task :=
  match s with Stdout => LogStdout | Stderr => LogStderr end.

(** State of an asyncio task.  [Pending] is suspended at its await;
    [CancelRequested] has had [cancel()] called and its wake-up with
    [CancelledError] is scheduled. *)
Inductive tstate :=
| NotCreated
| Pending
| CancelRequested
| Finished
| Failed (e : exn)
| Cancelled.

Definition done (s : tstate) : bool :=
  match s with
  | Finished | Failed _ | Cancelled => true
  | NotCreated | Pending | CancelRequested => false
  end.

(** The private event loop of one [launch_process] call, with the child's
    exit status as [proc.returncode] shows it. *)
Record Loop := mkLoop {
  stdout_task : tstate;
  stderr_task : tstate;
  wait_task : tstate;
  update_task : tstate;
  returncode : option Z
}.

Definition new_loop : Loop := mkLoop NotCreated NotCreated NotCreated NotCreated None.

Definition task_state (t : task) (l : Loop) : tstate :=
  match t with
  | LogStdout => stdout_task l
  | LogStderr => stderr_task l
  | ProcWait => wait_task l
  | Update => update_task l
  end.

Definition set_task (t : task) (s : tstate) (l : Loop) : Loop :=
  match t with
  | LogStdout => mkLoop s (stderr_task l) (wait_task l) (update_task l) (returncode l)
  | LogStderr => mkLoop (stdout_task l) s (wait_task l) (update_task l) (returncode l)
  | ProcWait => mkLoop (stdout_task l) (stderr_task l) s (update_task l) (returncode l)
  | Update => mkLoop (stdout_task l) (stderr_task l) (wait_task l) s (returncode l)
  end.

Definition set_returncode (rc : Z) (l : Loop) : Loop :=
  mkLoop (stdout_task l) (stderr_task l) (wait_task l) (update_task l) (Some rc).

(** [asyncio.wait(tasks)] is over once the two collectors and the
    exit-wait are done. *)
Definition tasks_done (l : Loop) : bool :=
  done (stdout_task l) && done (stderr_task l) && done (wait_task l).

(** What the outside world does while the loop runs.
    - [Spawned]: [create_subprocess_exec] has completed;
    - [Readline s data eof]: the pending [readline()] on stream [s]
      returns [data] (empty only at end of stream) and [eof] is what
      [at_eof()] answers next;
    - [ProcessExited rc]: the pending [proc.wait()] completes;
    - [SleepElapsed now]: the heartbeat's [asyncio.sleep] returns, at
      wall-clock time [now];
    - [Raised e]: [e] escapes the loop (a signal handler raising
      [KeyboardInterrupt], a failed spawn, ...);
    - [LineTooLong s]: the pending [readline()] on stream [s] raises
      [ValueError], the child having written a line longer than the
      stream reader's limit (64 KiB unless set otherwise, and [execute]
      does not set it). *)
Inductive event :=
| Spawned
| Readline (s : stream) (data : string) (eof : bool)
| ProcessExited (rc : Z)
| SleepElapsed (now : Z)
| Raised (e : exn)
| LineTooLong (s : stream).

Inductive level := LDebug | LInfo | LError.

(** Every effect the module performs, as one trace entry. *)
Inductive action :=
| SetStatus (s : Trial.Status)
| Heartbeat (now : Z)
| Save (snapshot : Trial.t)
| Print (text : string)
| Log (lvl : level) (msg : string)
| Makedirs (path : string)
| Spawn (argv : list string) (cwd : string) (env : gmap string string)
| TaskDone (t : task) (how : tstate)
| CancelTask (t : task)
| ReturnCode (rc : option Z)
| LoopClose.

(** ** Collaborators outside the module *)

(** What the module reads from its process and from the store:
    whether the store refuses the reservation (and with what message),
    the root logger's effective level and the level-name table,
    [os.environ], and the [Database] singleton's name, class name and
    address. *)
Record Host := mkHost {
  reserve_conflict : option string;
  effective_level : Z;
  level_names : gmap Z string;
  os_environ : gmap string string;
  database_name : string;
  database_class : string;
  database_uri : string
}.

Record World := mkWorld {
  w_host : Host;
  w_trial : Trial.t;
  w_dirs : gset string;
  w_loop : Loop;
  w_script : list event;
  w_trace : list action
}.

Definition set_trial (x : Trial.t) (w : World) : World :=
  mkWorld (w_host w) x (w_dirs w) (w_loop w) (w_script w) (w_trace w).

Definition set_dirs (d : gset string) (w : World) : World :=
  mkWorld (w_host w) (w_trial w) d (w_loop w) (w_script w) (w_trace w).

Definition set_loop (l : Loop) (w : World) : World :=
  mkWorld (w_host w) (w_trial w) (w_dirs w) l (w_script w) (w_trace w).

Definition set_script (evs : list event) (w : World) : World :=
  mkWorld (w_host w) (w_trial w) (w_dirs w) (w_loop w) evs (w_trace w).

Definition add_trace (a : action) (w : World) : World :=
  mkWorld (w_host w) (w_trial w) (w_dirs w) (w_loop w) (w_script w)
          (w_trace w ++ [a]).

(** ** The state-and-exception monad *)

(** A call returns, raises, or never comes back: [Blocked] is the loop
    waiting for an event the outside world does not deliver. *)
Inductive outcome (A : Type) :=
| Return (a : A)
| Raise (e : exn)
| Blocked.
Arguments Return {A} a.
Arguments Raise {A} e.
Arguments Blocked {A}.

Definition M (A : Type) : Type := World -> outcome A * World.

Definition ret {A} (a : A) : M A := fun w => (Return a, w).

Definition bind {A B} (c : M A) (k : A -> M B) : M B :=
  fun w =>
    match c w with
    | (Return a, w') => k a w'
    | (Raise e, w') => (Raise e, w')
    | (Blocked, w') => (Blocked, w')
    end.

Definition raise {A} (e : exn) : M A := fun w => (Raise e, w).

Declare Scope M_scope.
Delimit Scope M_scope with M.
Notation "x <- c ;; k" := (bind c (fun x => k))
  (at level 100, c at next level, k at level 200, right associativity) : M_scope.
Notation "c ;; k" := (bind c (fun _ => k))
  (at level 100, k at level 200, right associativity) : M_scope.
Open Scope M_scope.

(** [try: body except <clauses>]: [handler e] is the first matching
    clause's body, [None] when no clause matches. *)
Definition try_except {A} (body : M A) (handler : exn -> option (M A)) : M A :=
  fun w =>
    match body w with
    | (Raise e, w') =>
        match handler e with
        | Some h => h w'
        | None => (Raise e, w')
        end
    | r => r
    end.

(** [try: body finally: fin]. *)
Definition try_finally {A} (body : M A) (fin : M unit) : M A :=
  fun w =>
    match body w with
    | (Return a, w') => (fin ;; ret a) w'
    | (Raise e, w') => (fin ;; raise e) w'
    | (Blocked, w') => (Blocked, w')
    end.

Definition get_trial : M Trial.t := fun w => (Return (w_trial w), w).
Definition get_host : M Host := fun w => (Return (w_host w), w).
Definition get_loop : M Loop := fun w => (Return (w_loop w), w).
Definition modify_trial (f : Trial.t -> Trial.t) : M unit :=
  fun w => (Return tt, set_trial (f (w_trial w)) w).
Definition modify_loop (f : Loop -> Loop) : M unit :=
  fun w => (Return tt, set_loop (f (w_loop w)) w).
Definition emit (a : action) : M unit := fun w => (Return tt, add_trace a w).

Definition when (b : bool) (c : M unit) : M unit := if b then c else ret tt.

(** ** Trial operations *)

(** Modelled from the spec: the trial's operations (reserve, the four
    status marks, heartbeat, persist) belong to the absent trial class.
    Reservation fails with the store's conflict, a [RuntimeError], and
    then leaves the trial as it was; otherwise the trial becomes
    reserved.  A mark changes the in-memory status only; [save] is the
    one operation that writes the trial to the store. *)
Definition mark (s : Trial.Status) : M unit :=
  modify_trial (Trial.with_status s) ;; emit (SetStatus s).

Definition trial_reserve : M unit :=
  host <- get_host ;;
  match reserve_conflict host with
  | Some msg => raise (RuntimeError msg)
  | None => mark Trial.reserved
  end.

Definition trial_running : M unit := mark Trial.running.
Definition trial_complete : M unit := mark Trial.completed.
Definition trial_broken : M unit := mark Trial.broken.
Definition trial_suspend : M unit := mark Trial.suspended.

Definition trial_heartbeat (now : Z) : M unit :=
  modify_trial (Trial.with_heartbeat now) ;; emit (Heartbeat now).

Definition trial_save : M unit :=
  trial <- get_trial ;; emit (Save trial).

(** [stdlist.append(line)] on [trial._stdout] or [trial._stderr]. *)
Definition stdlist_append (s : stream) (line : string) : M unit :=
  match s with
  | Stdout => modify_trial (fun x => Trial.with_stdout (Trial._stdout x ++ [line]) x)
  | Stderr => modify_trial (fun x => Trial.with_stderr (Trial._stderr x ++ [line]) x)
  end.

Definition stdlist (s : stream) (x : Trial.t) : list string :=
  match s with Stdout => Trial._stdout x | Stderr => Trial._stderr x end.

(** ** Console, logging, file system *)

Definition print (text : string) : M unit := emit (Print text).
Definition logging_info (msg : string) : M unit := emit (Log LInfo msg).
Definition logging_error (msg : string) : M unit := emit (Log LError msg).
Definition log_debug (msg : string) : M unit := emit (Log LDebug msg).
Definition log_error (msg : string) : M unit := emit (Log LError msg).

Definition os_path_isdir (path : string) : M bool :=
  fun w => (Return (bool_decide (path ∈ w_dirs w)), w).

(** [os.makedirs(path)] creates the leaf directory and every missing
    directory on the way to it.  The file system is the set of the
    directory paths that exist, and the call is taken to succeed: a
    creation the operating system refuses is not modelled. *)
Definition os_makedirs (path : string) : M unit :=
  fun w => (Return tt,
            add_trace (Makedirs path)
                      (set_dirs (list_to_set (Py.ancestors path) ∪ w_dirs w) w)).

Definition sys_exit {A} (code : Z) : M A := raise (SystemExit code).

(** ** Operator guidance *)

Definition nl : ascii := ascii_of_nat 10.

(** [BROKEN.format(trial=trial)] *)
Definition BROKEN (trial : Trial.t) : string :=
  Py.join nl
    [ "";
      "You can check log with the following command:";
      "$ kleio cat --stderr " +:+ Trial.short_id trial;
      "";
      "To continue execution you can mark the trial as executable with:";
      "$ kleio switchover " +:+ Trial.short_id trial;
      "";
      "Or force execution with --switchover option:";
      "$ kleio exec --switchover " +:+ Trial.short_id trial;
      "" ]%string.

(** [RESERVE_BROKEN.format(trial=trial)] *)
Definition RESERVE_BROKEN (trial : Trial.t) : string :=
  Py.join nl
    [ "";
      "";
      "You can mark a broken trial as executable with the following command:";
      "$ kleio switchover " +:+ Trial.short_id trial;
      "";
      "You can also use the option --switch-over to force execution.";
      "" ]%string.

(** [INTERRUPT.format(trial=trial)] *)
Definition INTERRUPT (trial : Trial.t) : string :=
  Py.join nl
    [ "";
      "***";
      "Execution of '" +:+ Trial.short_id trial +:+ "' interrupted by user";
      "";
      "Execution can be resumed using the same command";
      "$ kleio " +:+ Trial.commandline trial;
      "";
      "$ kleio exec " +:+ Trial.id trial;
      "" ]%string.

(** ** The coroutines *)

(** A suspended coroutine is resumed with the awaited value, or with an
    exception thrown in at its [yield from]. *)
Inductive resumption (A : Type) :=
| Value (a : A)
| Thrown (e : exn).
Arguments Value {A} a.
Arguments Thrown {A} e.

Definition resume {A} (r : resumption A) : M A :=
  match r with
  | Value a => ret a
  | Thrown e => raise e
  end.

(** [update(trial, sleep_time)]: one turn of its [while True], from the
    [yield from asyncio.sleep(sleep_time)] it is suspended at back to the
    same point; [true] says the coroutine is suspended again.  The sleep
    is resumed with the wall-clock time the heartbeat will read;
    [sleep_time] only sets how often the world delivers
    [SleepElapsed]. *)
Definition update (r : resumption Z) : M bool :=
  try_except
    (now <- resume r ;;
     trial_heartbeat now ;;
     trial_save)
    (fun e =>
       match e with
       | CancelledError => Some (trial_save ;; raise e)
       | _ => None
       end) ;;
  ret true.

(** [log_stream(stdlist, stream, capture)]: one turn of its
    [while not stream.at_eof()], from the [yield from stream.readline()]
    it is suspended at, resumed with the bytes read or with the
    exception [readline()] raises; [eof] is the answer of the next
    [at_eof()] test, and the result says whether the coroutine is
    suspended again. *)
Definition log_stream (s : stream) (capture : bool) (r : resumption string)
  (eof : bool) : M bool :=
  data <- resume r ;;
  when (negb (Py.is_empty data))
    (match Py.decode_ascii data with
     | None => raise UnicodeDecodeError
     | Some text =>
         let line := Py.rstrip text in
         stdlist_append s line ;;
         when (negb capture) (print line)
     end) ;;
  ret (negb eof).

(** ** The event loop *)

Definition is_pending (s : tstate) : bool :=
  match s with Pending => true | _ => false end.

Definition is_cancel_requested (s : tstate) : bool :=
  match s with CancelRequested => true | _ => false end.

Definition finish (t : task) (how : tstate) : M unit :=
  modify_loop (set_task t how) ;; emit (TaskDone t how).

(** One step of a task: the coroutine suspends again, returns, or
    raises; a raised exception ends the task and stays inside it. *)
Definition step_task (t : task) (turn : M bool) : M unit :=
  fun w =>
    match turn w with
    | (Return true, w') => (Return tt, w')
    | (Return false, w') => finish t Finished w'
    | (Raise CancelledError, w') => finish t Cancelled w'
    | (Raise e, w') => finish t (Failed e) w'
    | (Blocked, w') => (Blocked, w')
    end.

(** The loop hands an event to the task waiting for it; an event no task
    waits for is dropped. *)
Definition dispatch (capture : bool) (ev : event) : M unit :=
  l <- get_loop ;;
  match ev with
  | Spawned => ret tt
  | Readline s data eof =>
      when (is_pending (task_state (collector s) l))
           (step_task (collector s) (log_stream s capture (Value data) eof))
  | ProcessExited rc =>
      when (is_pending (wait_task l))
           (modify_loop (set_returncode rc) ;; finish ProcWait Finished)
  | SleepElapsed now =>
      when (is_pending (update_task l))
           (step_task Update (update (Value now)))
  | Raised e => raise e
  | LineTooLong s =>
      when (is_pending (task_state (collector s) l))
           (step_task (collector s) (log_stream s capture (Thrown ValueError) true))
  end.

(** [yield from asyncio.wait(tasks)]: events are dispatched until the
    three tasks are done.  [execute] is not resumed in the loop
    iteration in which the last of them ends: the completion callback of
    that task and then the wake-up of the waiting coroutine are each
    scheduled with [call_soon], so [execute] runs again two iterations
    later.  A heartbeat whose sleep has elapsed by then takes its turn
    before [execute] does, which is a [SleepElapsed] next in the script;
    the sleep it starts then cannot elapse and be served before
    [execute] is.  What is left of the script is written back when the
    wait ends. *)
Fixpoint wait_loop (capture : bool) (evs : list event) (w : World)
  : outcome unit * World :=
  if tasks_done (w_loop w) then
    match evs with
    | SleepElapsed now :: evs' =>
        match dispatch capture (SleepElapsed now) w with
        | (r, w') => (r, set_script evs' w')
        end
    | _ => (Return tt, set_script evs w)
    end
  else
    match evs with
    | [] => (Blocked, set_script [] w)
    | ev :: evs' =>
        match dispatch capture ev w with
        | (Return _, w') => wait_loop capture evs' w'
        | (Raise e, w') => (Raise e, set_script evs' w')
        | (Blocked, w') => (Blocked, set_script evs' w')
        end
    end.

Definition asyncio_wait (capture : bool) : M unit :=
  fun w => wait_loop capture (w_script w) w.

(** [proc = yield from asyncio.create_subprocess_exec] on the argument
    vector, the working directory and the environment. *)
Fixpoint await_spawn (evs : list event) (w : World) : outcome unit * World :=
  match evs with
  | [] => (Blocked, set_script [] w)
  | Spawned :: evs' => (Return tt, set_script evs' w)
  | Raised e :: evs' => (Raise e, set_script evs' w)
  | _ :: evs' => await_spawn evs' w
  end.

Definition create_subprocess_exec
  (argv : list string) (cwd : string) (env : gmap string string) : M unit :=
  emit (Spawn argv cwd env) ;;
  (fun w => await_spawn (w_script w) w).

(** [asyncio.async(coro)]: the task runs up to its first await. *)
Definition asyncio_async (t : task) : M unit :=
  modify_loop (set_task t Pending).

(** [task.cancel()] *)
Definition task_cancel (t : task) : M unit :=
  l <- get_loop ;;
  emit (CancelTask t) ;;
  when (is_pending (task_state t l)) (modify_loop (set_task t CancelRequested)).

Definition proc_returncode : M (option Z) :=
  l <- get_loop ;; ret (returncode l).

(** [execute(trial, cwd, env, capture)] *)
Definition execute (capture : bool) (cwd : string) (env : gmap string string)
  : M (option Z) :=
  let env := <["PYTHONUNBUFFERED" := "1"]> env in
  trial <- get_trial ;;
  create_subprocess_exec (Py.split " " (Trial.commandline trial)) cwd env ;;
  asyncio_async LogStdout ;;
  asyncio_async LogStderr ;;
  asyncio_async ProcWait ;;
  asyncio_async Update ;;
  asyncio_wait capture ;;
  task_cancel Update ;;
  rc <- proc_returncode ;;
  emit (ReturnCode rc) ;;
  ret rc.

(** Callbacks already scheduled when the main task returns still run in
    the loop's last iteration: the cancelled heartbeat is woken with
    [CancelledError]. *)
Definition run_ready : M unit :=
  l <- get_loop ;;
  when (is_cancel_requested (update_task l))
       (step_task Update (update (Thrown CancelledError))).

(** [loop.run_until_complete(task)] *)
Definition run_until_complete {A} (main : M A) : M A :=
  r <- main ;;
  run_ready ;;
  ret r.

Definition new_event_loop : M unit := modify_loop (fun _ => new_loop).
Definition loop_close : M unit := emit LoopClose.

(** ** The consumer *)

Record Consumer := mkConsumer {
  root_working_dir : string;
  capture : bool
}.

(** [Consumer.__init__(self, working_dir, capture)] *)
Definition Consumer_init (working_dir : string) (capture : bool) : M Consumer :=
  log_debug "Creating Consumer object." ;;
  ret (mkConsumer (Py.os_path_join working_dir "kleio") capture).

(** [Consumer.launch_process(self, trial, working_dir)].  The rendering
    of the environment in the debug record is left out. *)
Definition launch_process (self : Consumer) (working_dir : string) : M (option Z) :=
  host <- get_host ;;
  trial <- get_trial ;;
  let env := os_environ host in
  let env := <["KLEIO_TRIAL_ID" := Trial.id trial]> env in
  let env := <["KLEIO_DB_NAME" := database_name host]> env in
  let env := <["KLEIO_DB_TYPE" := Py.lower (database_class host)]> env in
  let env := <["KLEIO_DB_ADDRESS" := database_uri host]> env in
  let level_to_verbose : gmap string Z :=
    list_to_map [("WARNING", 0); ("INFO", 1); ("DEBUG", 2)]%string in
  let env :=
    <["KLEIO_VERBOSITY" :=
        Py.str (default 2
                  (level_to_verbose !!
                     Py.getLevelName (level_names host) (effective_level host)))]>
      env in
  log_debug "Executing with env:" ;;
  new_event_loop ;;
  try_finally
    (try_except
       (run_until_complete (execute (capture self) working_dir env))
       (fun e =>
          match e with
          | KeyboardInterrupt =>
              Some (trial <- get_trial ;;
                    print (INTERRUPT trial) ;;
                    trial_suspend ;;
                    trial_save ;;
                    raise e)
          | _ =>
              Some (trial_broken ;;
                    trial_save ;;
                    raise e)
          end))
    loop_close.

(** The trial handle [_consume] gives back is the one it was given. *)
Inductive handle := the_trial.

(** [Consumer._consume(self, trial, working_dir)] *)
Definition _consume (self : Consumer) (working_dir : string) : M (option handle) :=
  trial <- get_trial ;;
  logging_info ("Executing command:" +:+ String nl (Trial.commandline trial)) ;;
  trial_running ;;
  returncode <- launch_process self working_dir ;;
  match returncode with
  | Some 0 => ret (Some the_trial)
  | _ =>
      log_error ("Something went wrong. Process returned with code "
                 +:+ from_option Py.str "None" returncode +:+ " !") ;;
      ret None
  end.

(** [Consumer.consume(self, trial)] *)
Definition consume (self : Consumer) : M unit :=
  try_except
    (trial_reserve ;;
     trial_save)
    (fun e =>
       match e with
       | RuntimeError msg =>
           Some (trial <- get_trial ;;
                 logging_error ("Failed to reserve '" +:+ Trial.short_id trial +:+ "'") ;;
                 logging_error msg ;;
                 when (bool_decide (Trial.status trial = Trial.broken))
                      (print (RESERVE_BROKEN trial)) ;;
                 sys_exit 0)
       | _ => None
       end) ;;
  trial <- get_trial ;;
  logging_info ("Trial reserved with id: " +:+ Trial.short_id trial) ;;
  let working_dir := Py.os_path_join (root_working_dir self) (Trial.short_id trial) in
  isdir <- os_path_isdir working_dir ;;
  when (negb isdir)
       (log_debug ("### Create new directory at '" +:+ working_dir +:+ "':") ;;
        os_makedirs working_dir) ;;
  log_debug ("## Working in directory '" +:+ working_dir +:+ "':") ;;
  completed_trial <- _consume self working_dir ;;
  match completed_trial with
  | Some _ =>
      logging_info "Trial successfully executed" ;;
      trial_complete ;;
      trial_save
  | None =>
      logging_error "Trial crashed. Save as broken." ;;
      trial <- get_trial ;;
      print (BROKEN trial) ;;
      trial_broken ;;
      trial_save
  end.

(** ** Reading traces and scripts *)

(** The snapshot the store holds: the one of the last [Save]. *)
Fixpoint persisted (tr : list action) : option Trial.t :=
  match tr with
  | [] => None
  | a :: tr' =>
      match persisted tr', a with
      | Some x, _ => Some x
      | None, Save x => Some x
      | None, _ => None
      end
  end.

Definition is_print (a : action) : option string :=
  match a with Print text => Some text | _ => None end.

(** The lines written to the console, oldest first. *)
Definition prints (tr : list action) : list string := omap is_print tr.

Definition is_save (a : action) : bool :=
  match a with Save _ => true | _ => false end.

Definition is_cancel (a : action) : bool :=
  match a with CancelTask _ => true | _ => false end.

Definition is_returncode (a : action) : bool :=
  match a with ReturnCode _ => true | _ => false end.

Definition is_spawn (a : action) : bool :=
  match a with Spawn _ _ _ => true | _ => false end.

Definition same_task (t t' : task) : bool :=
  match t, t' with
  | LogStdout, LogStdout | LogStderr, LogStderr
  | ProcWait, ProcWait | Update, Update => true
  | _, _ => false
  end.

Definition is_done_of (t : task) (a : action) : bool :=
  match a with TaskDone t' _ => same_task t t' | _ => false end.

Definition count (p : action -> bool) (tr : list action) : nat :=
  length (List.filter p tr).

(** What the tasks on the loop can do: echo, heartbeat, persist, end. *)
Definition loop_effect (a : action) : bool :=
  match a with
  | Print _ | Heartbeat _ | Save _ | TaskDone _ _ => true
  | _ => false
  end.

(** [needle] occurs in [hay]. *)
Definition names (hay needle : string) : Prop :=
  exists pre post, hay = pre +:+ needle +:+ post.

(** The loop dispatching a run of events, none of which raises. *)
Inductive steps (capture : bool) : World -> list event -> World -> Prop :=
| steps_nil w : steps capture w [] w
| steps_cons w ev w1 evs w2 :
    dispatch capture ev w = (Return tt, w1) ->
    steps capture w1 evs w2 ->
    steps capture w (ev :: evs) w2.

(** The part of a script the child's output can occur in: what follows
    the completion of the spawn. *)
Fixpoint after_spawn (evs : list event) : list event :=
  match evs with
  | [] => []
  | Spawned :: evs' => evs'
  | _ :: evs' => after_spawn evs'
  end.

Definition same_stream (s s' : stream) : bool :=
  match s, s' with
  | Stdout, Stdout | Stderr, Stderr => true
  | _, _ => false
  end.

(** The non-empty chunks the child's streams deliver, in arrival order,
    each with its stream, up to the end of that stream; [out] and [err]
    say whether stdout and stderr have not ended yet. *)
Fixpoint arrivals (out err : bool) (evs : list event) : list (stream * string) :=
  match evs with
  | [] => []
  | Readline s data eof :: evs' =>
      let open := match s with Stdout => out | Stderr => err end in
      (if open && negb (Py.is_empty data) then [(s, data)] else [])
      ++ match s with
         | Stdout => arrivals (out && negb eof) err evs'
         | Stderr => arrivals out (err && negb eof) evs'
         end
  | _ :: evs' => arrivals out err evs'
  end.

(** The arrivals of one stream. *)
Definition of_stream (s : stream) (arr : list (stream * string)) : list string :=
  map snd (List.filter (fun p => same_stream s (fst p)) arr).

(** The read delivers text: the bytes decode as ASCII, and the read
    itself does not fail. *)
Definition readable (ev : event) : bool :=
  match ev with
  | Readline _ data _ => Py.all_ascii data
  | LineTooLong _ => false
  | _ => true
  end.

(** [c] occurs in [s]. *)
Fixpoint has_char (c : ascii) (s : string) : bool :=
  match s with
  | EmptyString => false
  | String x s' => Ascii.eqb x c || has_char c s'
  end.

(** No whitespace occurs in [s]. *)
Fixpoint no_space (s : string) : bool :=
  match s with
  | EmptyString => true
  | String c s' => negb (Py.isspace c) && no_space s'
  end.

(** A word of the whitespace split: not empty, no whitespace in it. *)
Definition word (s : string) : bool := negb (Py.is_empty s) && no_space s.

(** ** Worlds along a run *)

Definition wait_has_code (l : Loop) : Prop :=
  done (wait_task l) = true -> exists rc, returncode l = Some rc.

Fixpoint no_spawned (evs : list event) : bool :=
  match evs with
  | [] => true
  | Spawned :: _ => false
  | _ :: evs' => no_spawned evs'
  end.

Definition started (w : World) : World :=
  set_loop (set_task Update Pending
              (set_task ProcWait Pending
                 (set_task LogStderr Pending
                    (set_task LogStdout Pending (w_loop w))))) w.

Definition spawn_of (cwd : string) (env : gmap string string) (w : World) : action :=
  Spawn (Py.split " " (Trial.commandline (w_trial w))) cwd
        (<["PYTHONUNBUFFERED" := "1"%string]> env).

(** The world after [update_task.cancel()], [return proc.returncode] and
    the heartbeat's wake-up with [CancelledError]. *)
Definition wound_up (w : World) : World :=
  mkWorld (w_host w) (w_trial w) (w_dirs w)
          (set_task Update Cancelled (w_loop w)) (w_script w)
          (w_trace w ++ [CancelTask Update; ReturnCode (returncode (w_loop w));
                         Save (w_trial w); TaskDone Update Cancelled]).

(** The environment [launch_process] hands to [execute]. *)
Definition child_env (host : Host) (trial : Trial.t) : gmap string string :=
  <["KLEIO_VERBOSITY" :=
      Py.str (default 2
                ((list_to_map [("WARNING", 0); ("INFO", 1); ("DEBUG", 2)]%string
                  : gmap string Z)
                   !! Py.getLevelName (level_names host) (effective_level host)))]>
    (<["KLEIO_DB_ADDRESS" := database_uri host]>
       (<["KLEIO_DB_TYPE" := Py.lower (database_class host)]>
          (<["KLEIO_DB_NAME" := database_name host]>
             (<["KLEIO_TRIAL_ID" := Trial.id trial]> (os_environ host))))).

(** The world [launch_process] starts the loop in. *)
Definition loop_ready (w : World) : World :=
  set_loop new_loop (add_trace (Log LDebug "Executing with env:") w).

Definition status_after (e : exn) : Trial.Status :=
  match e with
  | KeyboardInterrupt => Trial.suspended
  | _ => Trial.broken
  end.

Definition guidance_on (e : exn) (trial : Trial.t) : list action :=
  match e with
  | KeyboardInterrupt => [Print (INTERRUPT trial)]
  | _ => []
  end.

(** The world the [except] clauses and the [finally] leave. *)
Definition handled (e : exn) (w : World) : World :=
  let trial := Trial.with_status (status_after e) (w_trial w) in
  mkWorld (w_host w) trial (w_dirs w) (w_loop w) (w_script w)
          (w_trace w ++ guidance_on e (w_trial w)
             ++ [SetStatus (status_after e); Save trial; LoopClose]).

Definition working_dir_of (self : Consumer) (w : World) : string :=
  Py.os_path_join (root_working_dir self) (Trial.short_id (w_trial w)).

(** What [consume] does between a successful reservation and the call
    of [launch_process]. *)
Definition preparation (self : Consumer) (w : World) : list action :=
  [SetStatus Trial.reserved;
   Save (Trial.with_status Trial.reserved (w_trial w));
   Log LInfo ("Trial reserved with id: " +:+ Trial.short_id (w_trial w))]
  ++ (if bool_decide (working_dir_of self w ∈ w_dirs w) then []
      else [Log LDebug ("### Create new directory at '"
                        +:+ working_dir_of self w +:+ "':");
            Makedirs (working_dir_of self w)])
  ++ [Log LDebug ("## Working in directory '" +:+ working_dir_of self w +:+ "':");
      Log LInfo ("Executing command:"
                 +:+ String nl (Trial.commandline (w_trial w)));
      SetStatus Trial.running].

(** The world [launch_process] is called in. *)
Definition prepared (self : Consumer) (w : World) : World :=
  mkWorld (w_host w) (Trial.with_status Trial.running (w_trial w))
          (if bool_decide (working_dir_of self w ∈ w_dirs w) then w_dirs w
           else list_to_set (Py.ancestors (working_dir_of self w)) ∪ w_dirs w)
          (w_loop w) (w_script w) (w_trace w ++ preparation self w).

(** The world [consume] leaves once [launch_process] has returned. *)
Definition concluded (rc : option Z) (w : World) : World :=
  match rc with
  | Some 0 =>
      mkWorld (w_host w) (Trial.with_status Trial.completed (w_trial w))
              (w_dirs w) (w_loop w) (w_script w)
              (w_trace w ++ [Log LInfo "Trial successfully executed";
                             SetStatus Trial.completed;
                             Save (Trial.with_status Trial.completed (w_trial w))])
  | _ =>
      mkWorld (w_host w) (Trial.with_status Trial.broken (w_trial w))
              (w_dirs w) (w_loop w) (w_script w)
              (w_trace w
                 ++ [Log LError ("Something went wrong. Process returned with code "
                                 +:+ from_option Py.str "None" rc +:+ " !");
                     Log LError "Trial crashed. Save as broken.";
                     Print (BROKEN (w_trial w));
                     SetStatus Trial.broken;
                     Save (Trial.with_status Trial.broken (w_trial w))])
  end.

(** The world [consume] leaves when the reservation is refused. *)
Definition refused (msg : string) (w : World) : World :=
  mkWorld (w_host w) (w_trial w) (w_dirs w) (w_loop w) (w_script w)
          (w_trace w
             ++ [Log LError ("Failed to reserve '"
                             +:+ Trial.short_id (w_trial w) +:+ "'");
                 Log LError msg]
             ++ (if bool_decide (Trial.status (w_trial w) = Trial.broken)
                 then [Print (RESERVE_BROKEN (w_trial w))] else [])).

Definition launch_head (wd : string) (w : World) : list action :=
  [Log LDebug "Executing with env:";
   spawn_of wd (child_env (w_host w) (w_trial w)) w].

Definition wind_up (rc : option Z) (trial : Trial.t) : list action :=
  [CancelTask Update; ReturnCode rc; Save trial; TaskDone Update Cancelled;
   LoopClose].

(** The verbosity the claim gives for a level name. *)
Definition verbosity_of (name : string) : string :=
  if String.eqb name "WARNING" then "0"
  else if String.eqb name "INFO" then "1"
  else if String.eqb name "DEBUG" then "2"
  else "2".

(** The argument vector of the first spawn in a trace. *)
Fixpoint spawned_argv (tr : list action) : option (list string) :=
  match tr with
  | [] => None
  | Spawn argv _ _ :: _ => Some argv
  | _ :: tr' => spawned_argv tr'
  end.

(** A host, a trial and a consumer to run the module on. *)
Definition a_host : Host :=
  mkHost None Py.WARNING Py._levelToName
         (<["HOME" := "/home/worker"]> ∅) "kleio" "MongoDB" "mongodb://localhost".

Definition a_trial (commandline : string) (status : Trial.Status) : Trial.t :=
  Trial.mk "5ad9f8c2e1b04d7796c3" "5ad9f8c" commandline status [] [] None.

Definition a_world (host : Host) (trial : Trial.t) (script : list event) : World :=
  mkWorld host trial ∅ new_loop script [].

Definition a_consumer : Consumer := mkConsumer "/tmp/kleio" false.

Definition newline : string := String nl "".


Definition refusing_host : Host :=
  mkHost (Some "Trial is already reserved") Py.WARNING Py._levelToName
         ∅ "kleio" "MongoDB" "mongodb://localhost".

(** The child prints one line, a heartbeat passes, the child exits 0. *)
Definition echo_script : list event :=
  [Spawned; Readline Stdout ("hi" +:+ newline) false; Readline Stdout "" true;
   SleepElapsed 10; Readline Stderr "" true; ProcessExited 0].

(** The child complains on stderr and exits 1. *)
Definition failing_script : list event :=
  [Spawned; Readline Stderr ("boom" +:+ newline) false; Readline Stdout "" true;
   Readline Stderr "" true; ProcessExited 1].

(** The child is still running after its first line. *)
Definition running_script : list event :=
  [Spawned; Readline Stdout ("step 1" +:+ newline) false; SleepElapsed 10].

Definition echo_world : World :=
  a_world a_host (a_trial "echo hi" Trial.pending) echo_script.

Definition failing_world : World :=
  a_world a_host (a_trial "false" Trial.pending) failing_script.

Definition idle_world : World :=
  a_world a_host (a_trial "sleep 60" Trial.pending) [].

(** The trial's working directory under [a_consumer]. *)
Definition a_dir : string := "/tmp/kleio/5ad9f8c".

(** What the runs above leave. *)
Definition echo_launched : World := snd (launch_process a_consumer a_dir echo_world).
Definition echo_executed : World :=
  snd (run_until_complete (execute false a_dir ∅) echo_world).
Definition echo_consumed : World := snd (consume a_consumer echo_world).
Definition crashed : World :=
  snd (launch_process a_consumer a_dir
         (set_script [Spawned; Raised (Error "OSError")] idle_world)).
Definition still_launching : World :=
  snd (launch_process a_consumer a_dir (set_script [Spawned] idle_world)).
Definition still_running : World :=
  snd (consume a_consumer (set_script running_script idle_world)).

Definition is_makedirs (a : action) : bool :=
  match a with Makedirs _ => true | _ => false end.

Definition is_close (a : action) : bool :=
  match a with LoopClose => true | _ => false end.

(** The working directory of the first spawn in a trace. *)
Fixpoint spawned_cwd (tr : list action) : option string :=
  match tr with
  | [] => None
  | Spawn _ cwd _ :: _ => Some cwd
  | _ :: tr' => spawned_cwd tr'
  end.

(** The environment of the first spawn in a trace. *)
Fixpoint spawned_env (tr : list action) : option (gmap string string) :=
  match tr with
  | [] => None
  | Spawn _ _ env :: _ => Some env
  | _ :: tr' => spawned_env tr'
  end.

(** The variables the module sets for the child. *)
Definition injected : list string :=
  ["KLEIO_TRIAL_ID"; "KLEIO_DB_NAME"; "KLEIO_DB_TYPE"; "KLEIO_DB_ADDRESS";
   "KLEIO_VERBOSITY"; "PYTHONUNBUFFERED"]%string.

Definition is_heartbeat (a : action) : option Z :=
  match a with Heartbeat now => Some now | _ => None end.

(** The heartbeat times written, oldest first. *)
Definition heartbeats (tr : list action) : list Z := omap is_heartbeat tr.

Definition is_sleep (ev : event) : option Z :=
  match ev with SleepElapsed now => Some now | _ => None end.

(** The times at which the heartbeat's sleep returned. *)
Definition beats (evs : list event) : list Z := omap is_sleep evs.

Definition returned {A} (r : outcome A) : bool :=
  match r with Return _ => true | _ => false end.

(** The lines the collectors keep, oldest first, each with its stream:
    every non-empty chunk is decoded and right-stripped; a stream is
    read until [at_eof()] holds, a chunk fails to decode or a read
    fails, whichever comes first.  [out] and [err] say whether the
    collector of stdout and of stderr is still reading. *)
Fixpoint gathered (out err : bool) (evs : list event) : list (stream * string) :=
  match evs with
  | [] => []
  | Readline s data eof :: evs' =>
      let reading := match s with Stdout => out | Stderr => err end in
      let decodes := Py.is_empty data || Py.all_ascii data in
      (if reading && negb (Py.is_empty data) && Py.all_ascii data
       then [(s, Py.rstrip data)] else [])
      ++ match s with
         | Stdout => gathered (out && negb eof && decodes) err evs'
         | Stderr => gathered out (err && negb eof && decodes) evs'
         end
  | LineTooLong Stdout :: evs' => gathered false err evs'
  | LineTooLong Stderr :: evs' => gathered out false evs'
  | _ :: evs' => gathered out err evs'
  end.


(** Every character of [s] is whitespace. *)
Fixpoint all_space (s : string) : bool :=
  match s with
  | EmptyString => true
  | String c s' => Py.isspace c && all_space s'
  end.

Definition reading (s : stream) (l : Loop) : bool :=
  is_pending (task_state (collector s) l).

(** The event that ends task [t] when [t] is waiting for it: the end of
    its stream for a collector, the exit of the child for the
    exit-wait. *)
Definition ends (t : task) (ev : event) : bool :=
  match t, ev with
  | LogStdout, Readline Stdout _ true => true
  | LogStderr, Readline Stderr _ true => true
  | ProcWait, ProcessExited _ => true
  | _, _ => false
  end.

(** The exit code of the first exit in a script. *)
Fixpoint first_exit (evs : list event) : option Z :=
  match evs with
  | [] => None
  | ProcessExited rc :: _ => Some rc
  | _ :: evs' => first_exit evs'
  end.

Definition is_raised (ev : event) : bool :=
  match ev with Raised _ => true | _ => false end.

Definition is_spawned (ev : event) : bool :=
  match ev with Spawned => true | _ => false end.

(** A task that is on the loop: waiting, or done. *)
Definition on_loop (s : tstate) : bool := is_pending s || done s.

Fixpoint occurrences (c : ascii) (s : string) : nat :=
  match s with
  | EmptyString => 0
  | String x s' => (if Ascii.eqb x c then 1 else 0) + occurrences c s'
  end.

(** The child writes a line, then one longer than the reader's limit,
    then another line, and ends. *)
Definition long_line_script : list event :=
  [Spawned; Readline Stdout ("ok" +:+ newline) false; LineTooLong Stdout;
   Readline Stdout ("later" +:+ newline) false; Readline Stdout "" true;
   Readline Stderr "" true; ProcessExited 0].

Definition long_line_world : World :=
  a_world a_host (a_trial "cat report" Trial.pending) long_line_script.

Definition long_line_executed : World :=
  snd (run_until_complete (execute false a_dir ∅) long_line_world).

(** * Properties *)

(** ** Strings *)

Lemma append_cons (c : ascii) (a b : string) :
  String c a +:+ b = String c (a +:+ b).
Proof. reflexivity. Qed.

Lemma append_nil_r (s : string) : s +:+ "" = s.
Proof.
  induction s as [|c s IH]; [reflexivity | now rewrite append_cons, IH].
Qed.

Lemma append_assoc (a b c : string) : (a +:+ b) +:+ c = a +:+ (b +:+ c).
Proof.
  induction a as [|x a IH]; [reflexivity | now rewrite !append_cons, IH].
Qed.

Lemma is_empty_append (a b : string) :
  Py.is_empty (a +:+ b) = Py.is_empty a && Py.is_empty b.
Proof. destruct a; reflexivity. Qed.

Lemma is_empty_true (s : string) : Py.is_empty s = true -> s = ""%string.
Proof. destruct s; [reflexivity | discriminate]. Qed.

Lemma split_nonempty (sep : ascii) (s : string) : Py.split sep s <> [].
Proof.
  destruct s as [|c s]; simpl; [discriminate |].
  destruct (Ascii.eqb c sep); [discriminate |].
  destruct (Py.split sep s); discriminate.
Qed.

(** Joining the pieces with the separator gives the string back. *)
Lemma join_split (sep : ascii) (s : string) : Py.join sep (Py.split sep s) = s.
Proof.
  induction s as [|c s IH]; [reflexivity |].
  simpl. destruct (Ascii.eqb_spec c sep) as [-> | Hne].
  - pose proof (split_nonempty sep s) as Hs.
    destruct (Py.split sep s) as [|w ws]; [congruence |].
    change (Py.join sep ("" :: w :: ws))%string
      with (String sep (Py.join sep (w :: ws))).
    now rewrite IH.
  - pose proof (split_nonempty sep s) as Hs.
    destruct (Py.split sep s) as [|w ws]; [congruence |].
    destruct ws as [|w' ws].
    + simpl in *. now rewrite IH.
    + change (Py.join sep (String c w :: w' :: ws))
        with (String c (Py.join sep (w :: w' :: ws))).
      now rewrite IH.
Qed.

(** No piece contains the separator. *)
Lemma split_no_sep (sep : ascii) (s : string) :
  Forall (fun w => has_char sep w = false) (Py.split sep s).
Proof.
  induction s as [|c s IH]; simpl.
  - constructor; [reflexivity | constructor].
  - destruct (Ascii.eqb c sep) eqn:E.
    + constructor; [reflexivity | exact IH].
    + destruct (Py.split sep s) as [|w ws]; simpl.
      * constructor; [simpl; now rewrite E | constructor].
      * inversion IH; subst. constructor; [simpl; now rewrite E | assumption].
Qed.

Lemma split_whitespace_from_split (s acc : string) :
  match Py.split " " s with
  | [] => True
  | w :: ws =>
      no_space w = true -> Forall (fun p => word p = true) ws ->
      Py.split_whitespace_from acc s
      = if Py.is_empty (acc +:+ w) then ws else (acc +:+ w) :: ws
  end.
Proof.
  revert acc. induction s as [|c s IH]; intros acc; simpl.
  - intros _ _. rewrite append_nil_r. reflexivity.
  - destruct (Ascii.eqb_spec c " ") as [-> | Hne].
    + intros _ Hws. rewrite append_nil_r.
      specialize (IH ""%string).
      pose proof (split_nonempty " " s) as Hs.
      destruct (Py.split " " s) as [|w ws]; [congruence |].
      apply List.Forall_cons_iff in Hws as [Hw Hws'].
      unfold word in Hw. apply andb_true_iff in Hw as [Hne Hsp].
      rewrite (IH Hsp Hws'). simpl.
      change ("" +:+ w) with w.
      apply negb_true_iff in Hne. rewrite Hne. reflexivity.
    + specialize (IH (acc +:+ String c "")).
      pose proof (split_nonempty " " s) as Hs.
      destruct (Py.split " " s) as [|w ws]; [congruence |].
      simpl. intros Hcw Hws.
      apply andb_true_iff in Hcw as [Hc Hw].
      apply negb_true_iff in Hc. rewrite Hc.
      rewrite (IH Hw Hws), append_assoc. simpl.
      rewrite !is_empty_append. simpl. rewrite andb_false_r. reflexivity.
Qed.

(** When every piece of the split on the space character is a word,
    the split on whitespace gives the same pieces. *)
Lemma split_whitespace_agrees (s : string) :
  Forall (fun p => word p = true) (Py.split " " s) ->
  Py.split_whitespace s = Py.split " " s.
Proof.
  intros H. pose proof (split_whitespace_from_split s "") as Hs.
  pose proof (split_nonempty " " s) as Hn.
  destruct (Py.split " " s) as [|w ws]; [congruence |].
  apply List.Forall_cons_iff in H as [Hw Hws].
  unfold word in Hw. apply andb_true_iff in Hw as [Hne Hsp].
  unfold Py.split_whitespace. rewrite (Hs Hsp Hws).
  change ("" +:+ w) with w.
  apply negb_true_iff in Hne. now rewrite Hne.
Qed.

Lemma rstrip_empty_iff (s : string) :
  Py.is_empty (Py.rstrip s) = all_space s.
Proof.
  induction s as [|c s IH]; [reflexivity |].
  simpl. rewrite IH.
  destruct (all_space s), (Py.isspace c); reflexivity.
Qed.



(** What is cut off is whitespace, and only from the right. *)
Lemma rstrip_prefix (s : string) :
  exists tail, s = Py.rstrip s +:+ tail /\ all_space tail = true.
Proof.
  induction s as [|c s (tail & Hs & Ht)]; [exists ""%string; split; reflexivity |].
  simpl. destruct (Py.is_empty (Py.rstrip s) && Py.isspace c) eqn:E.
  - exists (String c s). split; [reflexivity |].
    apply andb_true_iff in E as [Ee Ec]. simpl. rewrite Ec.
    rewrite rstrip_empty_iff in Ee. exact Ee.
  - exists tail. split; [| exact Ht].
    rewrite append_cons. f_equal. exact Hs.
Qed.


(** ** One dispatch *)

Ltac unfold_dispatch :=
  cbv beta iota delta
    [dispatch bind get_loop when step_task log_stream update try_except
     resume ret raise finish modify_loop emit trial_heartbeat trial_save
     get_trial modify_trial stdlist_append print is_pending task_state
     collector set_task set_returncode set_loop set_trial add_trace
     w_loop w_trial w_trace w_host w_dirs w_script
     stdout_task stderr_task wait_task update_task returncode
     Py.decode_ascii Py.is_empty negb].

(** Every case of one dispatch: the event, the state of the task it is
    for, and the branches of that task's turn. *)
Ltac dispatch_cases ev w :=
  destruct w as [?h ?t ?d [?so ?se ?wt ?up ?rc] ?sc ?tr];
  destruct ev as [|[] [|?c ?data] ?eof|?rc'|?now|?e|[]];
  unfold_dispatch;
  repeat match goal with
    | |- context [match ?x with _ => _ end] =>
        first [is_var x; destruct x
              | match x with Py.all_ascii _ => destruct x eqn:?Hascii end]
    end.

Ltac trace_delta :=
  first [ exists []; split; [symmetry; apply app_nil_r |]
        | rewrite <- ?app_assoc; eexists; split; [reflexivity |] ].

Lemma dispatch_outcome cap ev w r w1 :
  dispatch cap ev w = (r, w1) ->
  r <> Blocked /\ forall e, r = Raise e -> ev = Raised e /\ w1 = w.
Proof.
  revert r w1. dispatch_cases ev w.
  all: intros r w1 H; injection H as <- <-.
  all: split; [discriminate | intros e' He; try discriminate He].
  injection He as <-. split; reflexivity.
Qed.

Lemma dispatch_frame cap ev w w1 :
  dispatch cap ev w = (Return tt, w1) ->
  w_host w1 = w_host w /\ w_dirs w1 = w_dirs w /\ w_script w1 = w_script w
  /\ Trial.id (w_trial w1) = Trial.id (w_trial w)
  /\ Trial.short_id (w_trial w1) = Trial.short_id (w_trial w)
  /\ Trial.commandline (w_trial w1) = Trial.commandline (w_trial w)
  /\ Trial.status (w_trial w1) = Trial.status (w_trial w)
  /\ update_task (w_loop w1) = update_task (w_loop w).
Proof.
  revert w1. dispatch_cases ev w.
  all: intros w1 H; try discriminate H; injection H as <-.
  all: repeat split; reflexivity.
Qed.

Lemma dispatch_wait_has_code cap ev w w1 :
  dispatch cap ev w = (Return tt, w1) ->
  wait_has_code (w_loop w) -> wait_has_code (w_loop w1).
Proof.
  revert w1. dispatch_cases ev w.
  all: intros w1 H; try discriminate H; injection H as <-.
  all: unfold wait_has_code; simpl; intros Hw Hd; eauto.
Qed.

Lemma dispatch_trace cap ev w w1 :
  dispatch cap ev w = (Return tt, w1) ->
  exists delta,
    w_trace w1 = w_trace w ++ delta
    /\ forallb loop_effect delta = true
    /\ (forall t,
          Nat.b2n (done (task_state t (w_loop w1)))
          = (Nat.b2n (done (task_state t (w_loop w))) + count (is_done_of t) delta)%nat)
    /\ (tasks_done (w_loop w) = false -> tasks_done (w_loop w1) = true ->
        exists delta' t how, delta = delta' ++ [TaskDone t how] /\ t <> Update).
Proof.
  revert w1. dispatch_cases ev w.
  all: intros w1 H; try discriminate H; injection H as <-.
  all: simpl; trace_delta.
  all: split; [reflexivity |].
  all: split; [intros []; unfold count; simpl; lia |].
  all: intros H0 H1; try congruence.
  all: first [ exists []; do 2 eexists; split; [reflexivity | discriminate]
             | eexists [_]; do 2 eexists; split; [reflexivity | discriminate] ].
Qed.

(** ** Runs of dispatches *)

Lemma count_app p (a b : list action) :
  count p (a ++ b) = (count p a + count p b)%nat.
Proof. unfold count. now rewrite List.filter_app, length_app. Qed.

Lemma prints_app (a b : list action) : prints (a ++ b) = prints a ++ prints b.
Proof. unfold prints. apply omap_app. Qed.

Lemma of_stream_app s (a b : list (stream * string)) :
  of_stream s (a ++ b) = of_stream s a ++ of_stream s b.
Proof. unfold of_stream. now rewrite List.filter_app, map_app. Qed.

Lemma steps_frame cap w evs w2 :
  steps cap w evs w2 ->
  w_host w2 = w_host w /\ w_dirs w2 = w_dirs w /\ w_script w2 = w_script w
  /\ Trial.id (w_trial w2) = Trial.id (w_trial w)
  /\ Trial.short_id (w_trial w2) = Trial.short_id (w_trial w)
  /\ Trial.commandline (w_trial w2) = Trial.commandline (w_trial w)
  /\ Trial.status (w_trial w2) = Trial.status (w_trial w)
  /\ update_task (w_loop w2) = update_task (w_loop w).
Proof.
  induction 1 as [w | w ev w1 evs w2 Hd Hs IH].
  - repeat split; reflexivity.
  - apply dispatch_frame in Hd.
    destruct Hd as (? & ? & ? & ? & ? & ? & ? & ?).
    destruct IH as (? & ? & ? & ? & ? & ? & ? & ?).
    repeat split; congruence.
Qed.

Lemma steps_wait_has_code cap w evs w2 :
  steps cap w evs w2 ->
  wait_has_code (w_loop w) -> wait_has_code (w_loop w2).
Proof.
  induction 1 as [w | w ev w1 evs w2 Hd Hs IH]; [trivial |].
  intros Hw. apply IH. eapply dispatch_wait_has_code; eauto.
Qed.

Lemma steps_trace cap w evs w2 :
  steps cap w evs w2 ->
  exists delta,
    w_trace w2 = w_trace w ++ delta
    /\ forallb loop_effect delta = true
    /\ (forall t,
          Nat.b2n (done (task_state t (w_loop w2)))
          = (Nat.b2n (done (task_state t (w_loop w))) + count (is_done_of t) delta)%nat).
Proof.
  induction 1 as [w | w ev w1 evs w2 Hd Hs IH].
  - exists []. rewrite app_nil_r. repeat split; try reflexivity.
    intros t. unfold count. simpl. lia.
  - destruct (dispatch_trace _ _ _ _ Hd) as (d1 & Ht1 & Hl1 & Hc1 & _).
    destruct IH as (d2 & Ht2 & Hl2 & Hc2).
    exists (d1 ++ d2). repeat split.
    + rewrite Ht2, Ht1. now rewrite app_assoc.
    + rewrite forallb_app, Hl1, Hl2. reflexivity.
    + intros t. rewrite Hc2, Hc1, count_app. lia.
Qed.

Lemma dispatch_gathered cap ev w w1 :
  dispatch cap ev w = (Return tt, w1) ->
  let got := gathered (reading Stdout (w_loop w)) (reading Stderr (w_loop w)) [ev] in
  (forall s, stdlist s (w_trial w1) = stdlist s (w_trial w) ++ of_stream s got)
  /\ (exists delta,
        w_trace w1 = w_trace w ++ delta
        /\ prints delta = if cap then [] else map snd got)
  /\ (forall evs,
        gathered (reading Stdout (w_loop w)) (reading Stderr (w_loop w)) (ev :: evs)
        = got ++ gathered (reading Stdout (w_loop w1))
                          (reading Stderr (w_loop w1)) evs).
Proof.
  revert w1. dispatch_cases ev w.
  all: intros w1 H; try discriminate H; injection H as <-.
  all: cbv zeta; unfold reading; cbn [gathered]; rewrite ?Hascii; simpl.
  all: split; [intros []; simpl; rewrite ?app_nil_r; reflexivity |].
  all: split; [trace_delta; reflexivity |].
  all: intros evs; rewrite ?app_nil_r, ?andb_true_r, ?andb_false_r; reflexivity.
Qed.

Lemma steps_gathered cap w evs w2 :
  steps cap w evs w2 ->
  let got := gathered (reading Stdout (w_loop w)) (reading Stderr (w_loop w)) evs in
  (forall s, stdlist s (w_trial w2) = stdlist s (w_trial w) ++ of_stream s got)
  /\ (exists delta,
        w_trace w2 = w_trace w ++ delta
        /\ prints delta = if cap then [] else map snd got).
Proof.
  induction 1 as [w | w ev w1 evs w2 Hd Hs IH].
  - simpl. split.
    + intros s. now rewrite app_nil_r.
    + exists []. rewrite app_nil_r. split; [reflexivity | now destruct cap].
  - destruct (dispatch_gathered _ _ _ _ Hd) as (Hb1 & (d1 & Ht1 & Hp1) & Hg).
    destruct IH as (Hb2 & (d2 & Ht2 & Hp2)).
    cbv zeta. rewrite Hg. split.
    + intros s. rewrite Hb2, Hb1, of_stream_app, app_assoc. reflexivity.
    + exists (d1 ++ d2). split.
      * rewrite Ht2, Ht1. now rewrite app_assoc.
      * rewrite prints_app, Hp1, Hp2. destruct cap; [reflexivity |].
        now rewrite map_app.
Qed.


(** ** The wait as a run of dispatches *)

(** A heartbeat's turn: it writes the time and saves, and ends none of
    the tasks. *)
Lemma dispatch_sleep cap now w r w1 :
  dispatch cap (SleepElapsed now) w = (r, w1) ->
  r = Return tt
  /\ tasks_done (w_loop w1) = tasks_done (w_loop w)
  /\ (w_trace w1 = w_trace w
      \/ w_trace w1 = w_trace w ++ [Heartbeat now; Save (w_trial w1)]).
Proof.
  destruct w as [h t d [so se wt up rc] sc tr]. unfold_dispatch.
  destruct up; intros H; injection H as <- <-.
  all: split; [reflexivity |]; split; [reflexivity |].
  all: first [left; reflexivity | right; simpl; rewrite <- app_assoc; reflexivity].
Qed.

Lemma wait_loop_steps cap evs w r w' :
  wait_loop cap evs w = (r, w') ->
  exists consumed rest wm,
    steps cap w consumed wm /\ w' = set_script rest wm
    /\ match r with
       | Return _ => evs = consumed ++ rest /\ tasks_done (w_loop wm) = true
       | Raise e => evs = consumed ++ Raised e :: rest
                    /\ tasks_done (w_loop wm) = false
       | Blocked => evs = consumed /\ rest = []
                    /\ tasks_done (w_loop wm) = false
       end.
Proof.
  revert w. induction evs as [|ev evs IH]; intros w H; simpl in H.
  - destruct (tasks_done (w_loop w)) eqn:Hd; injection H as <- <-.
    + exists [], [], w. repeat split; [constructor | assumption].
    + exists [], [], w. repeat split; [constructor | assumption].
  - destruct (tasks_done (w_loop w)) eqn:Hd.
    + destruct ev as [|s data eof|rc|now|e|s].
      4: { destruct (dispatch cap (SleepElapsed now) w) as [r1 w1] eqn:Hdis.
           injection H as <- <-.
           destruct (dispatch_sleep _ _ _ _ _ Hdis) as (-> & Hk & _).
           exists [SleepElapsed now], evs, w1.
           split; [econstructor; [exact Hdis | constructor] |].
           split; [reflexivity |]. split; [reflexivity | congruence]. }
      all: injection H as <- <-; eexists [], _, w;
        repeat split; [constructor | assumption].
    + destruct (dispatch cap ev w) as [[[] | e |] w1] eqn:Hdis.
      * destruct (IH _ H) as (consumed & rest & wm & Hs & -> & Hr).
        exists (ev :: consumed), rest, wm. split; [| split; [reflexivity |]].
        -- econstructor; eauto.
        -- destruct r as [[] | e |]; simpl;
             intuition (subst; auto).
      * injection H as <- <-.
        destruct (dispatch_outcome _ _ _ _ _ Hdis) as [_ He].
        destruct (He e eq_refl) as [-> ->].
        exists [], evs, w. repeat split; [constructor | assumption].
      * destruct (dispatch_outcome _ _ _ _ _ Hdis) as [Hb _]. congruence.
Qed.

Lemma wait_loop_done cap evs w r w' :
  tasks_done (w_loop w) = true ->
  wait_loop cap evs w = (r, w') ->
  r = Return tt
  /\ (w_trace w' = w_trace w
      \/ exists now, w_trace w' = w_trace w ++ [Heartbeat now; Save (w_trial w')]).
Proof.
  intros Hd H. destruct evs as [|ev evs]; simpl in H; rewrite Hd in H.
  - injection H as <- <-. split; [reflexivity | left; reflexivity].
  - destruct ev as [|s data eof|rc|now|e|s].
    4: { destruct (dispatch cap (SleepElapsed now) w) as [r1 w1] eqn:Hdis.
         injection H as <- <-.
         destruct (dispatch_sleep _ _ _ _ _ Hdis) as (-> & _ & [Ht | Ht]).
         - split; [reflexivity | left; exact Ht].
         - split; [reflexivity | right; exists now; exact Ht]. }
    all: injection H as <- <-; split; [reflexivity | left; reflexivity].
Qed.

(** When the wait returns, the last of the three tasks has just ended:
    after its end nothing is on the trace but, at most, one round of the
    heartbeat. *)
Lemma wait_loop_join cap evs w w' :
  wait_loop cap evs w = (Return tt, w') ->
  tasks_done (w_loop w) = false ->
  exists before t how late,
    w_trace w' = w_trace w ++ before ++ TaskDone t how :: late
    /\ t <> Update
    /\ (late = [] \/ exists now, late = [Heartbeat now; Save (w_trial w')]).
Proof.
  revert w. induction evs as [|ev evs IH]; intros w H Hnd; simpl in H;
    rewrite Hnd in H; [discriminate |].
  destruct (dispatch cap ev w) as [[[] | e |] w1] eqn:Hdis; try discriminate.
  destruct (dispatch_trace _ _ _ _ Hdis) as (d1 & Ht1 & _ & _ & Hlast).
  destruct (tasks_done (w_loop w1)) eqn:Hd1.
  - destruct (Hlast Hnd eq_refl) as (d' & t & how & -> & Hne).
    destruct (wait_loop_done _ _ _ _ _ Hd1 H) as (_ & [Hl | (now & Hl)]).
    + exists d', t, how, []. rewrite Hl, Ht1.
      split; [reflexivity |]. split; [exact Hne | left; reflexivity].
    + exists d', t, how, [Heartbeat now; Save (w_trial w')].
      rewrite Hl, Ht1, <- !app_assoc.
      split; [reflexivity |]. split; [exact Hne |]. right. exists now. reflexivity.
  - destruct (IH _ H Hd1) as (before & t & how & late & Ht & Hne & Hlate).
    exists (d1 ++ before), t, how, late. rewrite Ht, Ht1, <- !app_assoc.
    split; [reflexivity |]. split; assumption.
Qed.

(** A wait left blocked by a script raises as soon as the script goes
    on with an exception. *)
Lemma wait_loop_blocked_raised cap pre w wb e post :
  wait_loop cap pre w = (Blocked, wb) ->
  wait_loop cap (pre ++ Raised e :: post) w = (Raise e, set_script post wb).
Proof.
  revert w. induction pre as [|ev pre IH]; intros w H.
  - simpl in *. destruct (tasks_done (w_loop w)); [discriminate |].
    injection H as <-. reflexivity.
  - destruct (tasks_done (w_loop w)) eqn:Hd.
    + destruct (wait_loop_done _ _ _ _ _ Hd H) as [Hr _]. discriminate Hr.
    + simpl in *. rewrite Hd in *.
      destruct (dispatch cap ev w) as [[[] | e' |] w1] eqn:Hdis.
      * now apply IH.
      * discriminate.
      * destruct (dispatch_outcome _ _ _ _ _ Hdis) as [Hb _]. congruence.
Qed.

Lemma await_spawn_cases evs w r w' :
  await_spawn evs w = (r, w') ->
  exists skipped rest,
    w' = set_script rest w
    /\ no_spawned skipped = true
    /\ match r with
       | Return _ => evs = skipped ++ Spawned :: rest
       | Raise e => evs = skipped ++ Raised e :: rest
       | Blocked => evs = skipped /\ rest = []
       end.
Proof.
  induction evs as [|ev evs IH]; simpl; intros H.
  - injection H as <- <-. exists [], []. repeat split.
  - destruct ev as [|s data eof|rc|now|e|s].
    1, 5: injection H as <- <-; exists [], evs; repeat split.
    all: destruct (IH H) as (sk & rest & -> & Hsk & Hr).
    1: exists (Readline s data eof :: sk), rest.
    2: exists (ProcessExited rc :: sk), rest.
    3: exists (SleepElapsed now :: sk), rest.
    4: exists (LineTooLong s :: sk), rest.
    all: (split; [reflexivity |]); (split; [exact Hsk |]);
      destruct r as [[] | e |]; simpl; intuition (subst; auto).
Qed.

Lemma await_spawn_blocked_raised pre w wb e post :
  await_spawn pre w = (Blocked, wb) ->
  await_spawn (pre ++ Raised e :: post) w = (Raise e, set_script post wb).
Proof.
  induction pre as [|ev pre IH]; simpl; intros H.
  - injection H as <-. reflexivity.
  - destruct ev; try discriminate; now apply IH.
Qed.

Lemma after_spawn_skipped skipped rest :
  no_spawned skipped = true ->
  after_spawn skipped = [] /\ after_spawn (skipped ++ Spawned :: rest) = rest.
Proof.
  induction skipped as [|ev sk IH]; simpl; intros H; [split; reflexivity |].
  destruct ev; try discriminate; now apply IH.
Qed.

(** ** The supervisor *)

Lemma run_execute_unfold cap wd env w :
  run_until_complete (execute cap wd env) w =
  match await_spawn (w_script w) (add_trace (spawn_of wd env w) w) with
  | (Return _, w1) =>
      match wait_loop cap (w_script w1) (started w1) with
      | (Return _, w2) =>
          if is_pending (update_task (w_loop w2))
             || is_cancel_requested (update_task (w_loop w2))
          then (Return (returncode (w_loop w2)), wound_up w2)
          else (Return (returncode (w_loop w2)),
                add_trace (ReturnCode (returncode (w_loop w2)))
                          (add_trace (CancelTask Update) w2))
      | (Raise e, w2) => (Raise e, w2)
      | (Blocked, w2) => (Blocked, w2)
      end
  | (Raise e, w1) => (Raise e, w1)
  | (Blocked, w1) => (Blocked, w1)
  end.
Proof.
  unfold run_until_complete, execute, create_subprocess_exec, asyncio_wait.
  unfold bind at 1 2 3 4. unfold get_trial at 1. unfold emit at 1.
  change (w_script (add_trace ?a w)) with (w_script w).
  fold (spawn_of wd env w).
  destruct (await_spawn (w_script w) (add_trace (spawn_of wd env w) w))
    as [[[] | e |] w1]; try reflexivity.
  unfold bind at 1 2 3 4 5. unfold asyncio_async, modify_loop.
  change (wait_loop cap _ _) with (wait_loop cap (w_script w1) (started w1)).
  destruct (wait_loop cap (w_script w1) (started w1)) as [[[] | e |] w2];
    try reflexivity.
  destruct w2 as [h t d [so se wt up rc] sc tr].
  destruct up; try reflexivity.
  all: cbv -[app]; rewrite <- !app_assoc; reflexivity.
Qed.

Lemma run_execute_cases cap wd env w r w' :
  run_until_complete (execute cap wd env) w = (r, w') ->
  let w0 := add_trace (spawn_of wd env w) w in
  exists skipped,
    no_spawned skipped = true
    /\ ((exists rest,
           w' = set_script rest w0
           /\ match r with
              | Return _ => False
              | Raise e => w_script w = skipped ++ Raised e :: rest
              | Blocked => w_script w = skipped /\ rest = []
              end)
        \/ (exists after consumed rest wm,
              w_script w = skipped ++ Spawned :: after
              /\ steps cap (started (set_script after w0)) consumed wm
              /\ match r with
                 | Return rc =>
                     after = consumed ++ rest
                     /\ tasks_done (w_loop wm) = true
                     /\ rc = returncode (w_loop wm)
                     /\ w' = wound_up (set_script rest wm)
                 | Raise e =>
                     after = consumed ++ Raised e :: rest
                     /\ tasks_done (w_loop wm) = false
                     /\ w' = set_script rest wm
                 | Blocked =>
                     after = consumed /\ rest = []
                     /\ tasks_done (w_loop wm) = false
                     /\ w' = set_script rest wm
                 end)).
Proof.
  intros H w0. rewrite run_execute_unfold in H. fold w0 in H.
  change (w_script w) with (w_script w0) in H.
  destruct (await_spawn (w_script w0) w0) as [r1 w1] eqn:Hsp.
  apply await_spawn_cases in Hsp as (skipped & rest0 & -> & Hsk & Hr1).
  exists skipped. split; [exact Hsk |].
  destruct r1 as [[] | e |].
  - right.
    change (w_script (set_script rest0 w0)) with rest0 in H.
    destruct (wait_loop cap rest0 (started (set_script rest0 w0)))
      as [r2 w2] eqn:Hw.
    apply wait_loop_steps in Hw as (consumed & rest & wm & Hs & -> & Hr2).
    exists rest0, consumed, rest, wm. split; [exact Hr1 |]. split; [exact Hs |].
    destruct r2 as [[] | e |].
    + pose proof (steps_frame _ _ _ _ Hs) as (_ & _ & _ & _ & _ & _ & _ & Hu).
      change (update_task (w_loop (set_script rest wm)))
        with (update_task (w_loop wm)) in H.
      rewrite Hu in H. simpl in H. injection H as <- <-.
      destruct Hr2. repeat split; assumption.
    + injection H as <- <-. destruct Hr2. repeat split; assumption.
    + injection H as <- <-. destruct Hr2 as (? & ? & ?). repeat split; assumption.
  - left. injection H as <- <-. exists rest0. split; [reflexivity | exact Hr1].
  - left. injection H as <- <-. exists rest0. split; [reflexivity | exact Hr1].
Qed.

(** ** launch_process *)

Lemma launch_process_unfold self wd w :
  launch_process self wd w =
  match run_until_complete
          (execute (capture self) wd (child_env (w_host w) (w_trial w)))
          (loop_ready w) with
  | (Return rc, w2) => (Return rc, add_trace LoopClose w2)
  | (Raise e, w2) => (Raise e, handled e w2)
  | (Blocked, w2) => (Blocked, w2)
  end.
Proof.
  unfold launch_process, try_finally, try_except.
  unfold bind at 1 2 3 4. unfold get_host, get_trial, log_debug, emit, new_event_loop, modify_loop.
  fold (child_env (w_host w) (w_trial w)).
  change (set_loop _ (add_trace _ w)) with (loop_ready w).
  destruct (run_until_complete _ (loop_ready w)) as [[rc | e |] w2]; try reflexivity.
  destruct w2 as [h t d l sc tr].
  destruct e; cbv -[app INTERRUPT]; rewrite <- ?app_assoc; reflexivity.
Qed.

Lemma tasks_done_each (l : Loop) :
  tasks_done l = true ->
  forall t, t <> Update -> done (task_state t l) = true.
Proof.
  unfold tasks_done. intros H t Ht.
  apply andb_true_iff in H as [H Hw]. apply andb_true_iff in H as [Ho He].
  destruct t; simpl; congruence.
Qed.

(** When the run returns, the last of the three tasks to end is followed
    by the cancellation of the heartbeat, with at most one round of the
    heartbeat in between. *)
Lemma run_execute_join cap wd env w rc w' :
  run_until_complete (execute cap wd env) w = (Return rc, w') ->
  exists before t how late,
    w_trace w' = w_trace w ++ [spawn_of wd env w] ++ before
                   ++ TaskDone t how :: late
                   ++ [CancelTask Update; ReturnCode rc;
                       Save (w_trial w'); TaskDone Update Cancelled]
    /\ t <> Update
    /\ (late = [] \/ exists now, late = [Heartbeat now; Save (w_trial w')]).
Proof.
  intros H. rewrite run_execute_unfold in H.
  destruct (await_spawn (w_script w) (add_trace (spawn_of wd env w) w))
    as [[[] | e |] w1] eqn:Hsp; try discriminate.
  destruct (wait_loop cap (w_script w1) (started w1)) as [[[] | e |] w2] eqn:Hw;
    try discriminate.
  apply await_spawn_cases in Hsp as (skipped & rest0 & -> & _ & _).
  destruct (wait_loop_join _ _ _ _ Hw eq_refl)
    as (before & t & how & late & Ht & Hne & Hlate).
  pose proof (wait_loop_steps _ _ _ _ _ Hw) as (consumed & rest & wm & Hs & -> & _).
  pose proof (steps_frame _ _ _ _ Hs) as (_ & _ & _ & _ & _ & _ & _ & Fu).
  change (update_task (w_loop (set_script rest wm)))
    with (update_task (w_loop wm)) in H.
  rewrite Fu in H. simpl in H. injection H as <- <-.
  exists before, t, how, late. split; [| split; [exact Hne | exact Hlate]].
  simpl in *. rewrite Ht. rewrite <- !app_assoc. reflexivity.
Qed.

Lemma run_execute_trace cap wd env w r w' :
  run_until_complete (execute cap wd env) w = (r, w') ->
  (w_host w' = w_host w /\ w_dirs w' = w_dirs w
   /\ Trial.id (w_trial w') = Trial.id (w_trial w)
   /\ Trial.short_id (w_trial w') = Trial.short_id (w_trial w)
   /\ Trial.commandline (w_trial w') = Trial.commandline (w_trial w)
   /\ Trial.status (w_trial w') = Trial.status (w_trial w))
  /\ exists mid,
      forallb loop_effect mid = true
      /\ count (is_done_of Update) mid = 0%nat
      /\ match r with
         | Return rc =>
             w_trace w' = w_trace w ++ [spawn_of wd env w] ++ mid
                            ++ [CancelTask Update; ReturnCode rc;
                                Save (w_trial w'); TaskDone Update Cancelled]
             /\ (exists code, rc = Some code)
             /\ (exists mid' t how late,
                   mid = mid' ++ TaskDone t how :: late /\ t <> Update
                   /\ (late = []
                       \/ exists now, late = [Heartbeat now; Save (w_trial w')]))
             /\ (forall t, t <> Update -> count (is_done_of t) mid = 1%nat)
             /\ update_task (w_loop w') = Cancelled
         | _ => w_trace w' = w_trace w ++ [spawn_of wd env w] ++ mid
         end.
Proof.
  intros H. pose proof H as Hrun.
  apply run_execute_cases in H as (skipped & Hsk & [H | H]).
  - destruct H as (rest & -> & Hr). split; [repeat split |].
    exists []. split; [reflexivity |]. split; [reflexivity |].
    destruct r as [rc | e |]; [contradiction | reflexivity | reflexivity].
  - destruct H as (after & consumed & rest & wm & Hscript & Hs & Hr).
    pose proof (steps_frame _ _ _ _ Hs) as (Fh & Fd & Fs & Fi & Fsi & Fc & Fst & Fu).
    destruct (steps_trace _ _ _ _ Hs) as (mid & Ht & Hl & Hc).
    assert (Hup : count (is_done_of Update) mid = 0%nat).
    { specialize (Hc Update). simpl in Hc. rewrite Fu in Hc. simpl in Hc. lia. }
    destruct r as [rc | e |].
    + destruct Hr as (-> & Hdone & -> & ->). split; [repeat split; assumption |].
      exists mid. split; [exact Hl |]. split; [exact Hup |].
      assert (Htrace :
        w_trace (wound_up (set_script rest wm))
        = w_trace w ++ [spawn_of wd env w] ++ mid
            ++ [CancelTask Update; ReturnCode (returncode (w_loop wm));
                Save (w_trial (wound_up (set_script rest wm)));
                TaskDone Update Cancelled]).
      { simpl. rewrite Ht. simpl. rewrite <- !app_assoc. reflexivity. }
      split; [exact Htrace | split; [| split; [| split]]].
      * apply (steps_wait_has_code _ _ _ _ Hs); [discriminate |].
        now apply (tasks_done_each _ Hdone ProcWait).
      * destruct (run_execute_join _ _ _ _ _ _ Hrun)
          as (before & t & how & late & Hj & Hne & Hlate).
        exists before, t, how, late. split; [| split; assumption].
        rewrite Htrace in Hj. apply app_inv_head in Hj.
        simpl in Hj. injection Hj as Hj.
        rewrite app_comm_cons, app_assoc in Hj.
        apply app_inv_tail in Hj. exact Hj.
      * intros t Hne. specialize (Hc t).
        rewrite (tasks_done_each _ Hdone t Hne) in Hc.
        destruct t; simpl in Hc; first [lia | congruence].
      * reflexivity.
    + destruct Hr as (-> & Hdone & ->). split; [repeat split; assumption |].
      exists mid. split; [exact Hl |]. split; [exact Hup |].
      simpl. rewrite Ht. simpl. rewrite <- !app_assoc. reflexivity.
    + destruct Hr as (-> & -> & Hdone & ->). split; [repeat split; assumption |].
      exists mid. split; [exact Hl |]. split; [exact Hup |].
      simpl. rewrite Ht. simpl. rewrite <- !app_assoc. reflexivity.
Qed.

(** ** The script is only read by the two waits *)

Lemma dispatch_set_script cap ev sc w :
  dispatch cap ev (set_script sc w)
  = (fst (dispatch cap ev w), set_script sc (snd (dispatch cap ev w))).
Proof.
  dispatch_cases ev w; reflexivity.
Qed.

Lemma wait_loop_set_script cap evs sc w :
  wait_loop cap evs (set_script sc w) = wait_loop cap evs w.
Proof.
  revert w. induction evs as [|ev evs IH]; intros w; simpl.
  - destruct (tasks_done (w_loop w)); reflexivity.
  - destruct (tasks_done (w_loop w)).
    + destruct ev; try reflexivity.
      rewrite dispatch_set_script.
      destruct (dispatch cap (SleepElapsed now) w) as [r1 w1]; reflexivity.
    + rewrite dispatch_set_script.
      destruct (dispatch cap ev w) as [[[] | e |] w1]; simpl;
        [apply IH | reflexivity | reflexivity].
Qed.

Lemma await_spawn_set_script evs sc w :
  await_spawn evs (set_script sc w) = await_spawn evs w.
Proof.
  induction evs as [|ev evs IH]; simpl; [reflexivity |].
  destruct ev; try reflexivity; apply IH.
Qed.

Lemma await_spawn_returned_app pre more w w1 :
  await_spawn pre w = (Return tt, w1) ->
  await_spawn (pre ++ more) w = (Return tt, set_script (w_script w1 ++ more) w1).
Proof.
  induction pre as [|ev pre IH]; simpl; intros H; [discriminate |].
  destruct ev; try (now apply IH); [| discriminate].
  injection H as <-. reflexivity.
Qed.

Lemma started_set_script sc w : started (set_script sc w) = set_script sc (started w).
Proof. reflexivity. Qed.

(** If the run is still blocked after [pre], an exception delivered next
    comes out of [run_until_complete]. *)
Lemma run_execute_blocked_raised cap wd env w pre wb e post :
  run_until_complete (execute cap wd env) (set_script pre w) = (Blocked, wb) ->
  run_until_complete (execute cap wd env) (set_script (pre ++ Raised e :: post) w)
  = (Raise e, set_script post wb).
Proof.
  rewrite !run_execute_unfold.
  change (spawn_of wd env (set_script ?x w)) with (spawn_of wd env w).
  change (w_script (set_script ?x w)) with x.
  change (add_trace ?a (set_script ?x w)) with (set_script x (add_trace a w)).
  rewrite !await_spawn_set_script.
  set (w0 := add_trace (spawn_of wd env w) w).
  destruct (await_spawn pre w0) as [[[] | e1 |] w1] eqn:Hsp.
  - rewrite (await_spawn_returned_app _ (Raised e :: post) _ _ Hsp).
    change (w_script (set_script ?x w1)) with x.
    rewrite !started_set_script, !wait_loop_set_script.
    destruct (wait_loop cap (w_script w1) (started w1)) as [[[] | e2 |] w2] eqn:Hw.
    + destruct (_ || _); discriminate.
    + discriminate.
    + intros H. injection H as <-.
      now rewrite (wait_loop_blocked_raised _ _ _ _ e post Hw).
  - discriminate.
  - intros H. injection H as <-.
    now rewrite (await_spawn_blocked_raised _ _ _ e post Hsp).
Qed.

Lemma launch_process_blocked_raised self wd w pre wb e post :
  launch_process self wd (set_script pre w) = (Blocked, wb) ->
  launch_process self wd (set_script (pre ++ Raised e :: post) w)
  = (Raise e, handled e (set_script post wb)).
Proof.
  rewrite !launch_process_unfold.
  change (loop_ready (set_script ?x w)) with (set_script x (loop_ready w)).
  change (w_host (set_script ?x w)) with (w_host w).
  change (w_trial (set_script ?x w)) with (w_trial w).
  destruct (run_until_complete _ (set_script pre (loop_ready w)))
    as [[rc | e1 |] w2] eqn:Hrun; try discriminate.
  intros H. injection H as <-.
  now rewrite (run_execute_blocked_raised _ _ _ _ _ _ e post Hrun).
Qed.

(** ** consume *)

Ltac unfold_consume :=
  cbv beta iota zeta delta
    [consume _consume try_except trial_reserve trial_save trial_running
     trial_complete trial_broken mark bind ret raise get_host get_trial
     modify_trial emit when logging_info logging_error log_debug log_error
     print os_path_isdir os_makedirs sys_exit negb
     set_trial set_dirs add_trace
     w_host w_trial w_dirs w_loop w_script w_trace].

Lemma consume_refused self w msg :
  reserve_conflict (w_host w) = Some msg ->
  consume self w = (Raise (SystemExit 0), refused msg w).
Proof.
  intros H. destruct w as [h t d l sc tr]. simpl in H.
  unfold refused. unfold_consume. rewrite H. cbv beta iota.
  destruct (bool_decide _); cbv beta iota; rewrite <- ?app_assoc; reflexivity.
Qed.

Lemma consume_reserved self w :
  reserve_conflict (w_host w) = None ->
  consume self w =
  match launch_process self (working_dir_of self w) (prepared self w) with
  | (Return rc, w2) => (Return tt, concluded rc w2)
  | (Raise e, w2) => (Raise e, w2)
  | (Blocked, w2) => (Blocked, w2)
  end.
Proof.
  intros H. destruct w as [h t d l sc tr]. simpl in H.
  unfold prepared, preparation, working_dir_of.
  unfold_consume. rewrite H. cbv beta iota.
  change (Trial.short_id (Trial.with_status Trial.reserved t))
    with (Trial.short_id t).
  change (Trial.commandline (Trial.with_status Trial.reserved t))
    with (Trial.commandline t).
  change (Trial.with_status Trial.running (Trial.with_status Trial.reserved t))
    with (Trial.with_status Trial.running t).
  destruct (bool_decide _); cbv beta iota; rewrite <- !app_assoc; simpl app.
  all: match goal with
       | |- _ = (let (_, _) := ?c in _) =>
           set (L := c); change (launch_process _ _ _) with L;
           destruct L as [[[[|p|p]|] | e |] w2]
       end.
  all: try reflexivity.
  all: destruct w2 as [h2 t2 d2 l2 sc2 tr2];
    cbv beta iota delta [concluded w_host w_trial w_dirs w_loop w_script
                           w_trace from_option];
    rewrite <- ?app_assoc; try reflexivity.
Qed.

(** ** Reading traces *)

Lemma persisted_app (a b : list action) :
  persisted (a ++ b)
  = match persisted b with Some x => Some x | None => persisted a end.
Proof.
  induction a as [|x a IH]; simpl.
  - destruct (persisted b); reflexivity.
  - rewrite IH. destruct (persisted b); reflexivity.
Qed.

Lemma loop_effect_not cancel_or_code :
  forallb loop_effect cancel_or_code = true ->
  count is_cancel cancel_or_code = 0%nat
  /\ count is_returncode cancel_or_code = 0%nat
  /\ count is_spawn cancel_or_code = 0%nat.
Proof.
  unfold count. induction cancel_or_code as [|a l IH]; simpl; [auto |].
  intros H. apply andb_true_iff in H as [Ha Hl].
  destruct (IH Hl) as (? & ? & ?).
  destruct a; simpl in *; try discriminate; auto.
Qed.

Lemma count_zero_not_in p (l : list action) a :
  count p l = 0%nat -> p a = true -> ~ In a l.
Proof.
  unfold count. induction l as [|x l IH]; simpl; [tauto |].
  intros Hc Hp [<- | Hin].
  - rewrite Hp in Hc. discriminate.
  - destruct (p x); [discriminate | now apply IH].
Qed.

(** ** What a run leaves of the script *)

Lemma run_execute_script cap wd env w r w' :
  run_until_complete (execute cap wd env) w = (r, w') ->
  exists consumed,
    match r with
    | Return _ => w_script w = consumed ++ w_script w'
    | Raise e => w_script w = consumed ++ Raised e :: w_script w'
    | Blocked => w_script w = consumed /\ w_script w' = []
    end.
Proof.
  intros H. apply run_execute_cases in H as (skipped & Hsk & [H | H]).
  - destruct H as (rest & -> & Hr). exists skipped.
    destruct r as [rc | e |]; [contradiction | exact Hr |].
    destruct Hr as [-> ->]. split; reflexivity.
  - destruct H as (after & consumed & rest & wm & Hscript & Hs & Hr).
    exists (skipped ++ Spawned :: consumed). rewrite Hscript.
    destruct r as [rc | e |].
    + destruct Hr as (-> & _ & _ & ->). simpl. now rewrite <- app_assoc.
    + destruct Hr as (-> & _ & ->). simpl. now rewrite <- app_assoc.
    + destruct Hr as (-> & -> & _ & ->). split; reflexivity.
Qed.

(** ** launch_process, outcome by outcome *)

Lemma launch_process_trace self wd w r w' :
  launch_process self wd w = (r, w') ->
  (w_host w' = w_host w /\ w_dirs w' = w_dirs w
   /\ Trial.id (w_trial w') = Trial.id (w_trial w)
   /\ Trial.short_id (w_trial w') = Trial.short_id (w_trial w)
   /\ Trial.commandline (w_trial w') = Trial.commandline (w_trial w))
  /\ exists mid,
      forallb loop_effect mid = true
      /\ count (is_done_of Update) mid = 0%nat
      /\ match r with
         | Return rc =>
             w_trace w' = w_trace w ++ launch_head wd w ++ mid
                            ++ wind_up rc (w_trial w')
             /\ (exists code, rc = Some code)
             /\ (exists mid' t how late,
                   mid = mid' ++ TaskDone t how :: late /\ t <> Update
                   /\ (late = []
                       \/ exists now, late = [Heartbeat now; Save (w_trial w')]))
             /\ (forall t, t <> Update -> count (is_done_of t) mid = 1%nat)
             /\ update_task (w_loop w') = Cancelled
             /\ Trial.status (w_trial w') = Trial.status (w_trial w)
         | Raise e =>
             w_trace w' = w_trace w ++ launch_head wd w ++ mid
                            ++ guidance_on e (w_trial w')
                            ++ [SetStatus (status_after e); Save (w_trial w');
                                LoopClose]
             /\ Trial.status (w_trial w') = status_after e
             /\ exists consumed, w_script w = consumed ++ Raised e :: w_script w'
         | Blocked =>
             w_trace w' = w_trace w ++ launch_head wd w ++ mid
             /\ Trial.status (w_trial w') = Trial.status (w_trial w)
         end.
Proof.
  rewrite launch_process_unfold.
  destruct (run_until_complete _ (loop_ready w)) as [r1 w2] eqn:Hrun.
  pose proof (run_execute_script _ _ _ _ _ _ Hrun) as (consumed & Hsc).
  apply run_execute_trace in Hrun
    as ((Fh & Fd & Fi & Fsi & Fc & Fst) & mid & Hl & Hu & Hr).
  change (w_host (loop_ready w)) with (w_host w) in *.
  change (w_dirs (loop_ready w)) with (w_dirs w) in *.
  change (w_trial (loop_ready w)) with (w_trial w) in *.
  change (w_script (loop_ready w)) with (w_script w) in *.
  change (w_trace (loop_ready w))
    with (w_trace w ++ [Log LDebug "Executing with env:"]) in *.
  change (spawn_of ?d ?e (loop_ready w)) with (spawn_of d e w) in *.
  destruct r1 as [rc | e |]; intros H; injection H as <- <-.
  - split; [repeat split; assumption |].
    exists mid. split; [exact Hl |]. split; [exact Hu |].
    destruct Hr as (Ht & Hcode & Hlast & Hcount & Hupd).
    split; [| repeat split; assumption].
    simpl. rewrite Ht. unfold launch_head, wind_up.
    rewrite <- ?app_assoc. simpl. rewrite <- ?app_assoc. reflexivity.
  - split; [repeat split; assumption |].
    exists mid. split; [exact Hl |]. split; [exact Hu |].
    split; [| split; [reflexivity | exists consumed; exact Hsc]].
    simpl. rewrite Hr. unfold launch_head.
    rewrite <- ?app_assoc. simpl.
    destruct e; reflexivity.
  - split; [repeat split; assumption |].
    exists mid. split; [exact Hl |]. split; [exact Hu |].
    split; [| exact Fst]. rewrite Hr. unfold launch_head.
    rewrite <- ?app_assoc. reflexivity.
Qed.

(** ** What is printed *)





(** ** The child's argument vector and environment *)

Lemma child_env_verbosity host trial :
  child_env host trial !! "KLEIO_VERBOSITY"
  = Some (verbosity_of (Py.getLevelName (level_names host) (effective_level host))).
Proof.
  unfold child_env. rewrite lookup_insert_eq. f_equal.
  generalize (Py.getLevelName (level_names host) (effective_level host)).
  intros name. unfold verbosity_of.
  destruct (String.eqb_spec name "WARNING") as [-> | H1]; [reflexivity |].
  destruct (String.eqb_spec name "INFO") as [-> | H2]; [reflexivity |].
  destruct (String.eqb_spec name "DEBUG") as [-> | H3]; [reflexivity |].
  simpl. rewrite !lookup_insert_ne by congruence. rewrite lookup_empty.
  reflexivity.
Qed.

Lemma standard_level_name (lvl : Z) :
  Py.getLevelName Py._levelToName lvl
  = if lvl =? 50 then "CRITICAL"
    else if lvl =? 40 then "ERROR"
    else if lvl =? 30 then "WARNING"
    else if lvl =? 20 then "INFO"
    else if lvl =? 10 then "DEBUG"
    else if lvl =? 0 then "NOTSET"
    else "Level " +:+ Py.str lvl.
Proof.
  unfold Py.getLevelName, Py._levelToName, Py.CRITICAL, Py.ERROR, Py.WARNING,
    Py.INFO, Py.DEBUG, Py.NOTSET. simpl.
  repeat match goal with
    | |- context [?l =? ?k] =>
        destruct (Z.eqb_spec l k) as [-> | ?];
        [ rewrite ?lookup_insert_ne by lia; rewrite lookup_insert_eq; reflexivity |]
    end.
  rewrite !lookup_insert_ne by congruence. rewrite lookup_empty. reflexivity.
Qed.

Lemma verbosity_of_standard (lvl : Z) :
  verbosity_of (Py.getLevelName Py._levelToName lvl)
  = if lvl =? Py.WARNING then "0" else if lvl =? Py.INFO then "1" else "2".
Proof.
  rewrite standard_level_name. unfold Py.WARNING, Py.INFO.
  destruct (lvl =? 50) eqn:E50; [apply Z.eqb_eq in E50; subst; reflexivity |].
  destruct (lvl =? 40) eqn:E40; [apply Z.eqb_eq in E40; subst; reflexivity |].
  destruct (lvl =? 30) eqn:E30; [reflexivity |].
  destruct (lvl =? 20) eqn:E20; [reflexivity |].
  destruct (lvl =? 10) eqn:E10; [reflexivity |].
  destruct (lvl =? 0) eqn:E0; reflexivity.
Qed.

Lemma count_cons p a (l : list action) :
  count p (a :: l) = ((if p a then 1 else 0) + count p l)%nat.
Proof. unfold count. simpl. destruct (p a); reflexivity. Qed.

(** [launch_process] spawns once, first thing after its debug record. *)
Lemma launch_process_spawns self wd w r w' :
  launch_process self wd w = (r, w') ->
  exists after,
    w_trace w' = w_trace w ++ [Log LDebug "Executing with env:"]
                   ++ spawn_of wd (child_env (w_host w) (w_trial w)) w :: after
    /\ count is_spawn after = 0%nat.
Proof.
  intros H. apply launch_process_trace in H as (_ & mid & Hl & _ & Hr).
  destruct (loop_effect_not _ Hl) as (_ & _ & Hsp).
  destruct r as [rc | e |].
  - destruct Hr as (Ht & _). eexists. split; [exact Ht |].
    rewrite count_app, Hsp. reflexivity.
  - destruct Hr as (Ht & _). eexists. split; [exact Ht |].
    rewrite !count_app, Hsp. destruct e; reflexivity.
  - destruct Hr as (Ht & _). exists mid. split; [exact Ht | exact Hsp].
Qed.

(** C10. The [KLEIO_VERBOSITY] variable of the environment the child is
    spawned with is "0" when the root logger's effective level is named
    WARNING, "1" for INFO, "2" for DEBUG and "2" for any other level
    name; with the standard level table that is "0" at level 30, "1" at
    level 20 and "2" at every other level. *)
Theorem child_verbosity_follows_level self wd w r w' :
  launch_process self wd w = (r, w') ->
  exists before argv cwd env after,
    w_trace w' = w_trace w ++ before ++ Spawn argv cwd env :: after
    /\ count is_spawn before = 0%nat /\ count is_spawn after = 0%nat
    /\ env !! "KLEIO_VERBOSITY"
       = Some (verbosity_of (Py.getLevelName (level_names (w_host w))
                                             (effective_level (w_host w))))
    /\ (level_names (w_host w) = Py._levelToName ->
        env !! "KLEIO_VERBOSITY"
        = Some (if effective_level (w_host w) =? Py.WARNING then "0"
                else if effective_level (w_host w) =? Py.INFO then "1"
                else "2")).
Proof.
  intros H. apply launch_process_spawns in H as (after & Ht & Hc).
  exists [Log LDebug "Executing with env:"]. unfold spawn_of in Ht.
  do 3 eexists. exists after. split; [exact Ht |].
  split; [reflexivity |]. split; [exact Hc |].
  rewrite lookup_insert_ne by discriminate.
  rewrite child_env_verbosity. split; [reflexivity |].
  intros ->. now rewrite verbosity_of_standard.
Qed.

(** C9 (as amended). The child is spawned with the command line cut at
    every single space character: joining the arguments with a space
    gives the command line back and no argument contains a space.  This
    is the whitespace split whenever every argument is a non-empty,
    whitespace-free word. *)
Theorem argv_is_split_on_space self wd w r w' :
  launch_process self wd w = (r, w') ->
  exists delta,
    w_trace w' = w_trace w ++ delta
    /\ count is_spawn delta = 1%nat
    /\ spawned_argv delta = Some (Py.split " " (Trial.commandline (w_trial w)))
    /\ Py.join " " (Py.split " " (Trial.commandline (w_trial w)))
       = Trial.commandline (w_trial w)
    /\ Forall (fun p => has_char " " p = false)
              (Py.split " " (Trial.commandline (w_trial w)))
    /\ (Forall (fun p => word p = true)
               (Py.split " " (Trial.commandline (w_trial w))) ->
        spawned_argv delta
        = Some (Py.split_whitespace (Trial.commandline (w_trial w)))).
Proof.
  intros H. apply launch_process_spawns in H as (after & Ht & Hc).
  eexists. split; [exact Ht |].
  split; [| split; [reflexivity | split; [apply join_split | split]]].
  - rewrite count_app, !count_cons, Hc. reflexivity.
  - apply split_no_sep.
  - intros Hw. simpl. now rewrite split_whitespace_agrees.
Qed.

Lemma argv_is_split_on_space_witness :
  launch_process a_consumer "/tmp/kleio/5ad9f8c"
    (a_world a_host (a_trial "echo hi" Trial.running) [])
  = (Blocked,
     snd (launch_process a_consumer "/tmp/kleio/5ad9f8c"
            (a_world a_host (a_trial "echo hi" Trial.running) [])))
  /\ Forall (fun p => word p = true) (Py.split " " "echo hi")
  /\ exists delta,
      w_trace (snd (launch_process a_consumer "/tmp/kleio/5ad9f8c"
                      (a_world a_host (a_trial "echo hi" Trial.running) [])))
      = [] ++ delta
      /\ count is_spawn delta = 1%nat
      /\ spawned_argv delta = Some (Py.split " " "echo hi")
      /\ Py.join " " (Py.split " " "echo hi") = "echo hi"
      /\ Forall (fun p => has_char " " p = false) (Py.split " " "echo hi")
      /\ (Forall (fun p => word p = true) (Py.split " " "echo hi") ->
          spawned_argv delta = Some (Py.split_whitespace "echo hi")).
Proof.
  split; [vm_compute; reflexivity |].
  split; [repeat constructor |].
  apply (argv_is_split_on_space a_consumer "/tmp/kleio/5ad9f8c"
           (a_world a_host (a_trial "echo hi" Trial.running) []) Blocked).
  vm_compute; reflexivity.
Defined.

(** C9 (as stated) fails: with two spaces between the words the child
    gets an empty argument, which the whitespace split does not have. *)
Lemma argv_is_not_whitespace_split :
  spawned_argv
    (w_trace (snd (launch_process a_consumer "/tmp/kleio/5ad9f8c"
                     (a_world a_host (a_trial "echo  hi" Trial.running) []))))
  = Some ["echo"; ""; "hi"]%string
  /\ Py.split_whitespace "echo  hi" = ["echo"; "hi"]%string
  /\ spawned_argv
       (w_trace (snd (launch_process a_consumer "/tmp/kleio/5ad9f8c"
                        (a_world a_host (a_trial "echo  hi" Trial.running) []))))
     <> Some (Py.split_whitespace "echo  hi").
Proof.
  split; [vm_compute; reflexivity |].
  split; [vm_compute; reflexivity |].
  vm_compute. discriminate.
Qed.









(** ** The running mark and the store *)

Lemma persisted_preparation self w :
  persisted (w_trace w ++ preparation self w)
  = Some (Trial.with_status Trial.reserved (w_trial w)).
Proof.
  rewrite persisted_app. unfold preparation.
  destruct (bool_decide _); reflexivity.
Qed.

Lemma preparation_marks_running self w :
  exists before, preparation self w = before ++ [SetStatus Trial.running].
Proof.
  unfold preparation. destruct (bool_decide _); simpl;
    match goal with
    | |- exists b, ?l = _ => exists (removelast l); reflexivity
    end.
Qed.

Lemma preparation_no_spawn self w : count is_spawn (preparation self w) = 0%nat.
Proof. unfold preparation. destruct (bool_decide _); reflexivity. Qed.

(** C5 (what the code does). After a successful reservation the trial is
    marked running and the child is spawned, but nothing is saved in
    between: when the child is spawned the store still holds the trial
    as reserved. *)
Theorem running_is_not_saved_before_spawn self w r w' :
  reserve_conflict (w_host w) = None ->
  consume self w = (r, w') ->
  exists before argv cwd env after,
    w_trace w' = w_trace w ++ before ++ Spawn argv cwd env :: after
    /\ count is_spawn before = 0%nat
    /\ (exists marked, before = marked ++ [SetStatus Trial.running;
                                           Log LDebug "Executing with env:"])
    /\ persisted (w_trace w ++ before)
       = Some (Trial.with_status Trial.reserved (w_trial w))
    /\ persisted (w_trace w ++ before)
       <> Some (Trial.with_status Trial.running (w_trial w)).
Proof.
  intros Hres H. rewrite (consume_reserved _ _ Hres) in H.
  destruct (launch_process self (working_dir_of self w) (prepared self w))
    as [r1 w2] eqn:Hl.
  apply launch_process_spawns in Hl as (after & Ht & Hc).
  change (w_trace (prepared self w)) with (w_trace w ++ preparation self w) in Ht.
  unfold spawn_of in Ht.
  destruct (preparation_marks_running self w) as (marked & Hm).
  assert (Hp : persisted (w_trace w ++ preparation self w
                            ++ [Log LDebug "Executing with env:"])
               = Some (Trial.with_status Trial.reserved (w_trial w))).
  { rewrite app_assoc, persisted_app. simpl. apply persisted_preparation. }
  exists (preparation self w ++ [Log LDebug "Executing with env:"]).
  do 3 eexists.
  assert (Hw2 : exists tail, w_trace w' = w_trace w2 ++ tail).
  { destruct r1 as [rc | e |]; injection H as <- <-.
    - destruct rc as [[|p|p]|]; eexists; reflexivity.
    - exists []. now rewrite app_nil_r.
    - exists []. now rewrite app_nil_r. }
  destruct Hw2 as (tail & Hw2).
  exists (after ++ tail). split; [| split; [| split; [| split]]].
  - rewrite Hw2, Ht. rewrite <- !app_assoc. reflexivity.
  - rewrite count_app, preparation_no_spawn. reflexivity.
  - exists marked. rewrite Hm, <- app_assoc. reflexivity.
  - exact Hp.
  - rewrite Hp. intros Heq. injection Heq as Heq. discriminate Heq.
Qed.

(** ** Raising paths *)

Lemma handled_facts e w :
  Trial.status (w_trial (handled e w)) = status_after e
  /\ persisted (w_trace (handled e w)) = Some (w_trial (handled e w))
  /\ w_trace (handled e w)
     = w_trace w ++ guidance_on e (w_trial w)
         ++ [SetStatus (status_after e); Save (w_trial (handled e w)); LoopClose]
  /\ w_script (handled e w) = w_script w.
Proof.
  split; [reflexivity |]. split; [| split; reflexivity].
  simpl. rewrite !persisted_app. reflexivity.
Qed.

Lemma status_after_not_interrupt e :
  e <> KeyboardInterrupt -> status_after e = Trial.broken.
Proof. destruct e; [congruence | reflexivity ..]. Qed.

(** C2. Whenever [launch_process] raises, the exception is one that
    escaped the loop, and before it leaves the trial has been given its
    new status (suspended for a user interrupt, broken for anything
    else) and saved with it.  In particular a failure other than a user
    interrupt, delivered while execution is in progress, marks the trial
    broken, saves it, and comes out of [launch_process] unchanged. *)
Theorem raising_paths_persist_first self wd w :
  (forall e w',
      launch_process self wd w = (Raise e, w') ->
      (exists consumed, w_script w = consumed ++ Raised e :: w_script w')
      /\ Trial.status (w_trial w') = status_after e
      /\ persisted (w_trace w') = Some (w_trial w')
      /\ exists before,
          w_trace w' = w_trace w ++ before
                         ++ [SetStatus (status_after e); Save (w_trial w');
                             LoopClose])
  /\ (forall pre e post wb,
         e <> KeyboardInterrupt ->
         launch_process self wd (set_script pre w) = (Blocked, wb) ->
         exists w',
           launch_process self wd (set_script (pre ++ Raised e :: post) w)
           = (Raise e, w')
           /\ Trial.status (w_trial w') = Trial.broken
           /\ persisted (w_trace w') = Some (w_trial w')
           /\ w_trace w' = w_trace wb
                             ++ [SetStatus Trial.broken; Save (w_trial w');
                                 LoopClose]).
Proof.
  split.
  - intros e w' H.
    pose proof (launch_process_trace _ _ _ _ _ H)
      as (_ & mid & _ & _ & Ht & Hst & Hsc).
    split; [exact Hsc |]. split; [exact Hst |]. split.
    + rewrite Ht, !persisted_app. reflexivity.
    + exists (launch_head wd w ++ mid ++ guidance_on e (w_trial w')).
      rewrite Ht, <- !app_assoc. reflexivity.
  - intros pre e post wb Hne H.
    rewrite (launch_process_blocked_raised _ _ _ _ _ e post H).
    eexists. split; [reflexivity |].
    destruct (handled_facts e (set_script post wb)) as (Hs & Hp & Ht & _).
    rewrite (status_after_not_interrupt _ Hne) in *.
    split; [exact Hs |]. split; [exact Hp |].
    rewrite Ht. destruct e; try reflexivity. congruence.
Qed.

(** C3. A user interrupt delivered while [consume] is executing the
    trial comes out of [consume] as [KeyboardInterrupt]; before that the
    interrupt guidance is printed and the trial is marked suspended and
    saved. *)
Theorem interrupt_suspends_and_propagates self w pre post wb :
  consume self (set_script pre w) = (Blocked, wb) ->
  exists w',
    consume self (set_script (pre ++ Raised KeyboardInterrupt :: post) w)
    = (Raise KeyboardInterrupt, w')
    /\ Trial.status (w_trial w') = Trial.suspended
    /\ persisted (w_trace w') = Some (w_trial w')
    /\ w_trace w' = w_trace wb
                      ++ [Print (INTERRUPT (w_trial wb));
                          SetStatus Trial.suspended; Save (w_trial w');
                          LoopClose]
    /\ w_script w' = post.
Proof.
  intros H.
  destruct (reserve_conflict (w_host w)) as [msg |] eqn:Hres.
  - rewrite (consume_refused _ (set_script pre w) msg Hres) in H. discriminate.
  - rewrite (consume_reserved _ (set_script pre w) Hres) in H.
    rewrite (consume_reserved _ (set_script (pre ++ _) w) Hres).
    change (working_dir_of self (set_script ?x w)) with (working_dir_of self w) in *.
    change (prepared self (set_script ?x w)) with (set_script x (prepared self w)) in *.
    destruct (launch_process self (working_dir_of self w)
                (set_script pre (prepared self w))) as [[rc | e |] w2] eqn:Hl;
      try discriminate.
    injection H as <-.
    rewrite (launch_process_blocked_raised _ _ _ _ _ KeyboardInterrupt post Hl).
    eexists. split; [reflexivity |].
    destruct (handled_facts KeyboardInterrupt (set_script post w2))
      as (Hs & Hp & Ht & Hsc).
    split; [exact Hs |]. split; [exact Hp |]. split; [exact Ht | exact Hsc].
Qed.

(** ** Joining the three tasks, cancelling the heartbeat *)

Lemma launch_head_counts wd w :
  count is_cancel (launch_head wd w) = 0%nat
  /\ count is_returncode (launch_head wd w) = 0%nat
  /\ forall t, count (is_done_of t) (launch_head wd w) = 0%nat.
Proof. repeat split. Qed.



(** C7. When the heartbeat task is cancelled, [launch_process] returns
    the exit code and no error; the cancelled task saves the trial
    exactly once more and then ends as cancelled: the trace closes with
    the cancellation, the reading of the exit code, that one save, the
    end of the heartbeat task and the closing of the loop. *)
Theorem cancelled_heartbeat_saves_once self wd w r w' delta :
  launch_process self wd w = (r, w') ->
  w_trace w' = w_trace w ++ delta ->
  In (CancelTask Update) delta ->
  (exists code, r = Return (Some code))
  /\ update_task (w_loop w') = Cancelled
  /\ exists before rc,
      delta = before ++ [CancelTask Update; ReturnCode rc; Save (w_trial w');
                         TaskDone Update Cancelled; LoopClose]
      /\ count is_cancel before = 0%nat
      /\ count (is_done_of Update) before = 0%nat
      /\ count is_save [ReturnCode rc; Save (w_trial w')] = 1%nat.
Proof.
  intros H Hdelta Hin.
  apply launch_process_trace in H as (_ & mid & Hl & Hupd & Hr).
  destruct (loop_effect_not _ Hl) as (Hcan & _ & _).
  destruct (launch_head_counts wd w) as (Hh1 & _ & Hh3).
  assert (Hnone : ~ In (CancelTask Update) (launch_head wd w ++ mid)).
  { apply (count_zero_not_in is_cancel); [| reflexivity].
    rewrite count_app, Hh1, Hcan. reflexivity. }
  destruct r as [rc | e |].
  - destruct Hr as (Ht & (code & ->) & _ & _ & Hu & _).
    rewrite Ht in Hdelta. apply app_inv_head in Hdelta. subst delta.
    split; [exists code; reflexivity |]. split; [exact Hu |].
    exists (launch_head wd w ++ mid), (Some code).
    split; [| split; [| split]].
    + unfold wind_up. rewrite <- app_assoc. reflexivity.
    + rewrite count_app, Hh1, Hcan. reflexivity.
    + rewrite count_app, Hh3, Hupd. reflexivity.
    + reflexivity.
  - exfalso. destruct Hr as (Ht & _).
    rewrite Ht in Hdelta. apply app_inv_head in Hdelta. subst delta.
    rewrite app_assoc in Hin. apply in_app_iff in Hin as [Hin | Hin];
      [contradiction |].
    apply in_app_iff in Hin as [Hin | Hin].
    + destruct e; simpl in Hin; intuition discriminate.
    + simpl in Hin. intuition discriminate.
  - exfalso. destruct Hr as (Ht & _).
    rewrite Ht in Hdelta. apply app_inv_head in Hdelta. subst delta.
    contradiction.
Qed.

(** ** The collectors *)

Lemma gathered_readable out err evs :
  forallb readable evs = true ->
  gathered out err evs
  = map (fun p => (fst p, Py.rstrip (snd p))) (arrivals out err evs).
Proof.
  revert out err. induction evs as [|ev evs IH]; intros out err Hr;
    [reflexivity |].
  cbn [forallb] in Hr. apply andb_true_iff in Hr as [Hev Hr].
  destruct ev as [|s data eof|rc|now|e|s]; cbn [gathered arrivals];
    try (now apply IH); [| discriminate Hev].
  cbn [readable] in Hev. rewrite Hev, orb_true_r, !andb_true_r, map_app.
  destruct s; rewrite (IH _ _ Hr);
    destruct out, err, (Py.is_empty data); reflexivity.
Qed.

(** C8 (as amended). Over the part of the script a run consumes, each
    stream's buffer grows, at its end only, by the lines of that stream:
    its non-empty chunks, decoded and right-stripped, in arrival order,
    up to the end of the stream or to the first read that fails (a line
    longer than the reader's limit, a chunk that does not decode), where
    that collector stops and the rest of the stream is not collected,
    while the other collector goes on.  The console gets the same lines,
    of both streams in arrival order, when capture is off and nothing
    when it is on.  When every read of the run delivers text, these are
    all the chunks of each stream up to its end. *)
Theorem collectors_keep_arrival_order cap wd env w r w' :
  run_until_complete (execute cap wd env) w = (r, w') ->
  exists consumed delta,
    match r with
    | Return _ => w_script w = consumed ++ w_script w'
    | Raise e => w_script w = consumed ++ Raised e :: w_script w'
    | Blocked => w_script w = consumed
    end
    /\ w_trace w' = w_trace w ++ delta
    /\ Trial._stdout (w_trial w')
       = Trial._stdout (w_trial w)
           ++ of_stream Stdout (gathered true true (after_spawn consumed))
    /\ Trial._stderr (w_trial w')
       = Trial._stderr (w_trial w)
           ++ of_stream Stderr (gathered true true (after_spawn consumed))
    /\ prints delta
       = (if cap then [] else map snd (gathered true true (after_spawn consumed)))
    /\ (forallb readable (after_spawn consumed) = true ->
        gathered true true (after_spawn consumed)
        = map (fun p => (fst p, Py.rstrip (snd p)))
              (arrivals true true (after_spawn consumed))).
Proof.
  intros H. apply run_execute_cases in H as (skipped & Hsk & [H | H]).
  - destruct H as (rest & -> & Hr).
    destruct (after_spawn_skipped skipped [] Hsk) as [Hnone _].
    exists skipped, [spawn_of wd env w]. rewrite Hnone. simpl.
    rewrite !app_nil_r.
    split; [destruct r as [rc | e |]; [contradiction | exact Hr | tauto] |].
    repeat split; try reflexivity; now destruct cap.
  - destruct H as (after & consumed & rest & wm & Hscript & Hs & Hr).
    assert (Hfold : after_spawn (skipped ++ Spawned :: consumed) = consumed)
      by apply (after_spawn_skipped skipped consumed Hsk).
    destruct (steps_gathered _ _ _ _ Hs) as (Hb & d & Ht & Hp).
    change (reading ?s (w_loop (started ?x))) with true in *.
    pose proof (Hb Stdout) as Hout. pose proof (Hb Stderr) as Herr.
    simpl in Hout, Herr, Ht.
    exists (skipped ++ Spawned :: consumed). rewrite Hfold.
    destruct r as [rc | e |].
    + destruct Hr as (-> & _ & _ & ->).
      exists ([spawn_of wd env w] ++ d
                ++ [CancelTask Update; ReturnCode (returncode (w_loop wm));
                    Save (w_trial wm); TaskDone Update Cancelled]).
      split; [rewrite Hscript, <- app_assoc; reflexivity |].
      split; [simpl; rewrite Ht, <- !app_assoc; reflexivity |].
      split; [exact Hout |]. split; [exact Herr |].
      split; [| apply gathered_readable].
      rewrite !prints_app, Hp. simpl. now rewrite app_nil_r.
    + destruct Hr as (-> & _ & ->).
      exists ([spawn_of wd env w] ++ d).
      split; [rewrite Hscript, <- app_assoc; reflexivity |].
      split; [simpl; rewrite Ht, <- !app_assoc; reflexivity |].
      split; [exact Hout |]. split; [exact Herr |].
      split; [| apply gathered_readable].
      rewrite !prints_app, Hp. reflexivity.
    + destruct Hr as (-> & -> & _ & ->).
      exists ([spawn_of wd env w] ++ d).
      split; [exact Hscript |].
      split; [simpl; rewrite Ht, <- !app_assoc; reflexivity |].
      split; [exact Hout |]. split; [exact Herr |].
      split; [| apply gathered_readable].
      rewrite !prints_app, Hp. reflexivity.
Qed.

(** C8 (as stated) fails: after a line longer than the reader's limit
    the collector of that stream is gone, and a later line of the
    stream, all of it text and before the end of the stream, reaches
    neither the buffer nor the console. *)
Lemma collector_stops_at_a_line_too_long :
  run_until_complete (execute false a_dir ∅) long_line_world
  = (Return (Some 0), long_line_executed)
  /\ w_script long_line_executed = []
  /\ map Py.rstrip
       (of_stream Stdout (arrivals true true (after_spawn long_line_script)))
     = ["ok"; "later"]%string
  /\ Trial._stdout (w_trial long_line_executed) = ["ok"]%string
  /\ prints (w_trace long_line_executed) = ["ok"]%string
  /\ Trial._stdout (w_trial long_line_executed)
     <> map Py.rstrip
          (of_stream Stdout (arrivals true true (after_spawn long_line_script))).
Proof.
  split; [vm_compute; reflexivity |].
  split; [vm_compute; reflexivity |].
  split; [vm_compute; reflexivity |].
  split; [vm_compute; reflexivity |].
  split; [vm_compute; reflexivity |].
  vm_compute. discriminate.
Qed.

(** ** Runs to evaluate *)

Lemma child_verbosity_follows_level_witness :
  launch_process a_consumer a_dir echo_world = (Return (Some 0), echo_launched)
  /\ level_names (w_host echo_world) = Py._levelToName
  /\ exists before argv cwd env after,
      w_trace echo_launched
      = w_trace echo_world ++ before ++ Spawn argv cwd env :: after
      /\ env !! "KLEIO_VERBOSITY" = Some "0"%string.
Proof.
  assert (H : launch_process a_consumer a_dir echo_world
              = (Return (Some 0), echo_launched)) by (vm_compute; reflexivity).
  split; [exact H |]. split; [reflexivity |].
  destruct (child_verbosity_follows_level _ _ _ _ _ H)
    as (before & argv & cwd & env & after & Ht & _ & _ & _ & Hstd).
  exists before, argv, cwd, env, after. split; [exact Ht |].
  exact (Hstd eq_refl).
Defined.


Lemma running_is_not_saved_before_spawn_witness :
  reserve_conflict (w_host echo_world) = None
  /\ consume a_consumer echo_world = (Return tt, echo_consumed)
  /\ exists before argv cwd env after,
      w_trace echo_consumed
      = w_trace echo_world ++ before ++ Spawn argv cwd env :: after
      /\ persisted (w_trace echo_world ++ before)
         = Some (Trial.with_status Trial.reserved (w_trial echo_world)).
Proof.
  assert (H0 : reserve_conflict (w_host echo_world) = None) by reflexivity.
  assert (H1 : consume a_consumer echo_world = (Return tt, echo_consumed))
    by (vm_compute; reflexivity).
  destruct (running_is_not_saved_before_spawn _ _ _ _ H0 H1)
    as (before & argv & cwd & env & after & Ht & _ & _ & Hp & _).
  split; [exact H0 |]. split; [exact H1 |].
  exists before, argv, cwd, env, after. exact (conj Ht Hp).
Defined.

Lemma raising_paths_persist_first_witness :
  launch_process a_consumer a_dir
    (set_script [Spawned; Raised (Error "OSError")] idle_world)
  = (Raise (Error "OSError"), crashed)
  /\ Trial.status (w_trial crashed) = status_after (Error "OSError")
  /\ persisted (w_trace crashed) = Some (w_trial crashed)
  /\ Error "OSError" <> KeyboardInterrupt
  /\ launch_process a_consumer a_dir (set_script [Spawned] idle_world)
     = (Blocked, still_launching)
  /\ exists w',
      launch_process a_consumer a_dir
        (set_script ([Spawned] ++ Raised (Error "OSError") :: []) idle_world)
      = (Raise (Error "OSError"), w')
      /\ Trial.status (w_trial w') = Trial.broken
      /\ persisted (w_trace w') = Some (w_trial w').
Proof.
  assert (H1 : launch_process a_consumer a_dir
                 (set_script [Spawned; Raised (Error "OSError")] idle_world)
               = (Raise (Error "OSError"), crashed)) by (vm_compute; reflexivity).
  assert (Hne : Error "OSError" <> KeyboardInterrupt) by discriminate.
  assert (H2 : launch_process a_consumer a_dir (set_script [Spawned] idle_world)
               = (Blocked, still_launching)) by (vm_compute; reflexivity).
  destruct (raising_paths_persist_first a_consumer a_dir
              (set_script [Spawned; Raised (Error "OSError")] idle_world))
    as (Hall & _).
  destruct (Hall _ _ H1) as (_ & Hst & Hp & _).
  destruct (raising_paths_persist_first a_consumer a_dir idle_world)
    as (_ & Hin).
  destruct (Hin [Spawned] (Error "OSError") [] still_launching Hne H2)
    as (w' & Hr & Hs' & Hp' & _).
  split; [exact H1 |]. split; [exact Hst |]. split; [exact Hp |].
  split; [exact Hne |]. split; [exact H2 |].
  exists w'. exact (conj Hr (conj Hs' Hp')).
Defined.

Lemma interrupt_suspends_and_propagates_witness :
  consume a_consumer (set_script running_script idle_world)
  = (Blocked, still_running)
  /\ exists w',
      consume a_consumer
        (set_script (running_script ++ Raised KeyboardInterrupt
                       :: [ProcessExited 0]) idle_world)
      = (Raise KeyboardInterrupt, w')
      /\ Trial.status (w_trial w') = Trial.suspended
      /\ persisted (w_trace w') = Some (w_trial w')
      /\ w_trace w'
         = w_trace still_running
             ++ [Print (INTERRUPT (w_trial still_running));
                 SetStatus Trial.suspended; Save (w_trial w'); LoopClose]
      /\ w_script w' = [ProcessExited 0].
Proof.
  assert (H : consume a_consumer (set_script running_script idle_world)
              = (Blocked, still_running)) by (vm_compute; reflexivity).
  split; [exact H |].
  exact (interrupt_suspends_and_propagates a_consumer idle_world
           running_script [ProcessExited 0] still_running H).
Defined.


Lemma cancelled_heartbeat_saves_once_witness :
  launch_process a_consumer a_dir echo_world = (Return (Some 0), echo_launched)
  /\ w_trace echo_launched = w_trace echo_world ++ w_trace echo_launched
  /\ In (CancelTask Update) (w_trace echo_launched)
  /\ (exists code, Return (Some 0) = Return (Some code))
  /\ update_task (w_loop echo_launched) = Cancelled
  /\ exists before rc,
      w_trace echo_launched
      = before ++ [CancelTask Update; ReturnCode rc; Save (w_trial echo_launched);
                   TaskDone Update Cancelled; LoopClose]
      /\ count is_cancel before = 0%nat
      /\ count (is_done_of Update) before = 0%nat
      /\ count is_save [ReturnCode rc; Save (w_trial echo_launched)] = 1%nat.
Proof.
  assert (H1 : launch_process a_consumer a_dir echo_world
               = (Return (Some 0), echo_launched)) by (vm_compute; reflexivity).
  assert (H2 : w_trace echo_launched
               = w_trace echo_world ++ w_trace echo_launched)
    by (vm_compute; reflexivity).
  assert (H3 : In (CancelTask Update) (w_trace echo_launched)).
  { vm_compute. repeat (first [left; reflexivity | right]). }
  split; [exact H1 |]. split; [exact H2 |]. split; [exact H3 |].
  exact (cancelled_heartbeat_saves_once _ _ _ _ _ _ H1 H2 H3).
Defined.

Lemma collectors_keep_arrival_order_witness :
  run_until_complete (execute false a_dir ∅) echo_world
  = (Return (Some 0), echo_executed)
  /\ exists consumed delta,
      w_script echo_world = consumed ++ w_script echo_executed
      /\ w_trace echo_executed = w_trace echo_world ++ delta
      /\ Trial._stdout (w_trial echo_executed)
         = Trial._stdout (w_trial echo_world)
             ++ of_stream Stdout (gathered true true (after_spawn consumed))
      /\ Trial._stderr (w_trial echo_executed)
         = Trial._stderr (w_trial echo_world)
             ++ of_stream Stderr (gathered true true (after_spawn consumed))
      /\ prints delta = map snd (gathered true true (after_spawn consumed)).
Proof.
  assert (H : run_until_complete (execute false a_dir ∅) echo_world
              = (Return (Some 0), echo_executed)) by (vm_compute; reflexivity).
  split; [exact H |].
  destruct (collectors_keep_arrival_order _ _ _ _ _ _ H)
    as (consumed & delta & Hsc & Ht & Hout & Herr & Hp & _).
  exists consumed, delta.
  exact (conj Hsc (conj Ht (conj Hout (conj Herr Hp)))).
Defined.

(** ** Further properties: directory, environment, loop *)

Lemma count_outside_loop p (l : list action) :
  (forall a, p a = true -> loop_effect a = false) ->
  forallb loop_effect l = true -> count p l = 0%nat.
Proof.
  intros Hp. unfold count. induction l as [|a l IH]; simpl; [reflexivity |].
  intros H. apply andb_true_iff in H as [Ha Hl].
  destruct (p a) eqn:E; [| now apply IH].
  rewrite (Hp a E) in Ha. discriminate.
Qed.

Lemma consume_trace_tail r1 w2 r w' :
  match r1 with
  | Return rc => (Return tt, concluded rc w2)
  | Raise e => (Raise e, w2)
  | Blocked => (Blocked, w2)
  end = (r, w') ->
  w_dirs w' = w_dirs w2
  /\ exists tail,
      w_trace w' = w_trace w2 ++ tail
      /\ count is_makedirs tail = 0%nat
      /\ count is_spawn tail = 0%nat.
Proof.
  destruct r1 as [[[|p|p]|] | e |]; intros H; injection H as <- <-.
  all: split; [reflexivity |].
  all: first [ exists []; split; [now rewrite app_nil_r | split; reflexivity]
             | eexists; split; [reflexivity | split; reflexivity] ].
Qed.

Lemma ancestors_from_self (acc path : string) :
  In (acc +:+ path) (Py.ancestors_from acc path).
Proof.
  revert acc. induction path as [|c path IH]; intros acc; simpl.
  - left. symmetry. apply append_nil_r.
  - apply in_app_iff. right.
    replace (acc +:+ String c path) with ((acc +:+ String c "") +:+ path)
      by (rewrite append_assoc; reflexivity).
    apply IH.
Qed.

Lemma ancestors_from_prefix (acc path d : string) :
  In d (Py.ancestors_from acc path) -> exists rest, acc +:+ path = d +:+ rest.
Proof.
  revert acc. induction path as [|c path IH]; intros acc; simpl.
  - intros [<- | []]. exists ""%string. reflexivity.
  - intros Hin. apply in_app_iff in Hin as [Hin | Hin].
    + destruct (_ && _); [| contradiction]. destruct Hin as [<- | []].
      exists (String c path). reflexivity.
    + apply IH in Hin as (rest & Hr). exists rest. rewrite <- Hr.
      rewrite append_assoc. reflexivity.
Qed.

(** X1. A [consume] whose reservation succeeds calls [os.makedirs] once,
    on the trial's working directory, when that directory is missing,
    and not at all when it is there.  No directory is removed and the
    only directories that appear are the working directory and the
    directories on the way to it.  A child is only ever spawned in the
    working directory, which exists by then, with every directory on
    the way to it when it had to be created. *)
Theorem working_directory_is_ensured self w r w' :
  reserve_conflict (w_host w) = None ->
  consume self w = (r, w') ->
  exists delta,
    w_trace w' = w_trace w ++ delta
    /\ w_dirs w ⊆ w_dirs w'
    /\ (forall d, d ∈ w_dirs w' ->
          d ∈ w_dirs w
          \/ (In d (Py.ancestors (working_dir_of self w))
              /\ exists rest, working_dir_of self w = d +:+ rest))
    /\ count is_makedirs delta
       = (if bool_decide (working_dir_of self w ∈ w_dirs w) then 0 else 1)%nat
    /\ (forall path, In (Makedirs path) delta -> path = working_dir_of self w)
    /\ forall argv cwd env,
         In (Spawn argv cwd env) delta ->
         cwd = working_dir_of self w
         /\ working_dir_of self w ∈ w_dirs w'
         /\ (working_dir_of self w ∉ w_dirs w ->
             forall d, In d (Py.ancestors (working_dir_of self w)) ->
                       d ∈ w_dirs w').
Proof.
  intros Hres H. rewrite (consume_reserved _ _ Hres) in H.
  destruct (launch_process self (working_dir_of self w) (prepared self w))
    as [r1 w2] eqn:Hl.
  pose proof (launch_process_trace _ _ _ _ _ Hl)
    as ((_ & Fd & _ & _ & _) & mid & Hle & _ & Hr).
  apply launch_process_spawns in Hl as (after & Ht & Hsp).
  apply consume_trace_tail in H as (Hd & tail & Hw' & Hmk & Hts).
  change (w_trace (prepared self w)) with (w_trace w ++ preparation self w) in *.
  assert (Hafter : count is_makedirs after = 0%nat).
  { assert (Hmid : count is_makedirs mid = 0%nat)
      by (apply count_outside_loop; [now intros [] | exact Hle]).
    destruct r1 as [rc | e |].
    - destruct Hr as (Ht' & _). rewrite Ht in Ht'.
      rewrite <- !app_assoc in Ht'. do 2 apply app_inv_head in Ht'.
      unfold launch_head in Ht'. simpl in Ht'. injection Ht' as ->.
      rewrite count_app, Hmid. reflexivity.
    - destruct Hr as (Ht' & _). rewrite Ht in Ht'.
      rewrite <- !app_assoc in Ht'. do 2 apply app_inv_head in Ht'.
      unfold launch_head in Ht'. simpl in Ht'. injection Ht' as ->.
      rewrite !count_app, Hmid. destruct e; reflexivity.
    - destruct Hr as (Ht' & _). rewrite Ht in Ht'.
      rewrite <- !app_assoc in Ht'. do 2 apply app_inv_head in Ht'.
      unfold launch_head in Ht'. simpl in Ht'. injection Ht' as ->.
      exact Hmid. }
  assert (Hdirs : w_dirs w'
                  = if bool_decide (working_dir_of self w ∈ w_dirs w)
                    then w_dirs w
                    else list_to_set (Py.ancestors (working_dir_of self w))
                           ∪ w_dirs w)
    by (rewrite Hd, Fd; reflexivity).
  assert (Hself : In (working_dir_of self w)
                     (Py.ancestors (working_dir_of self w)))
    by apply (ancestors_from_self "").
  eexists. split; [rewrite Hw', Ht, <- !app_assoc; reflexivity |].
  split; [| split; [| split; [| split]]].
  - rewrite Hdirs. destruct (bool_decide _); [reflexivity |].
    apply union_subseteq_r.
  - intros d Hin. rewrite Hdirs in Hin.
    destruct (bool_decide _); [left; exact Hin |].
    apply elem_of_union in Hin as [Hin | Hin]; [right | left; exact Hin].
    apply elem_of_list_to_set, list_elem_of_In in Hin.
    split; [exact Hin |]. now apply (ancestors_from_prefix "").
  - rewrite !count_app, !count_cons, Hafter, Hmk. unfold preparation.
    destruct (bool_decide _); reflexivity.
  - intros path Hin. rewrite !in_app_iff in Hin.
    destruct Hin as [Hin | [Hin | [Hin | Hin]]].
    + unfold preparation in Hin. destruct (bool_decide _); cbn [app In] in Hin;
        intuition congruence.
    + destruct Hin as [Hx | []]. discriminate Hx.
    + exfalso. destruct Hin as [Hx | Hin];
        [unfold spawn_of in Hx; discriminate Hx |].
      revert Hin. apply (count_zero_not_in is_makedirs); auto.
    + exfalso. revert Hin. apply (count_zero_not_in is_makedirs); auto.
  - intros argv cwd env Hin.
    assert (Hcwd : cwd = working_dir_of self w).
    { rewrite !in_app_iff in Hin. destruct Hin as [Hin | [Hin | [Hin | Hin]]].
      - exfalso. revert Hin. apply (count_zero_not_in is_spawn);
          [apply preparation_no_spawn | reflexivity].
      - destruct Hin as [Hx | []]. discriminate Hx.
      - destruct Hin as [Hx | Hin].
        + unfold spawn_of in Hx. now injection Hx.
        + exfalso. revert Hin. apply (count_zero_not_in is_spawn); auto.
      - exfalso. revert Hin. apply (count_zero_not_in is_spawn); auto. }
    split; [exact Hcwd |]. rewrite Hdirs.
    destruct (bool_decide (working_dir_of self w ∈ w_dirs w)) eqn:E.
    + apply bool_decide_eq_true in E. split; [exact E | contradiction].
    + split.
      * apply elem_of_union_l, elem_of_list_to_set, list_elem_of_In, Hself.
      * intros _ d Hd'.
        now apply elem_of_union_l, elem_of_list_to_set, list_elem_of_In.
Qed.

(** X2. The child's environment is the host's, with the trial's id, the
    store's name, lower-cased class name and address, and
    [PYTHONUNBUFFERED] set to "1": the injected variables override the
    host's and every other variable is passed through unchanged. *)
Theorem child_environment self wd w r w' :
  launch_process self wd w = (r, w') ->
  exists delta env,
    w_trace w' = w_trace w ++ delta
    /\ spawned_env delta = Some env
    /\ env !! "KLEIO_TRIAL_ID" = Some (Trial.id (w_trial w))
    /\ env !! "KLEIO_DB_NAME" = Some (database_name (w_host w))
    /\ env !! "KLEIO_DB_TYPE" = Some (Py.lower (database_class (w_host w)))
    /\ env !! "KLEIO_DB_ADDRESS" = Some (database_uri (w_host w))
    /\ env !! "PYTHONUNBUFFERED" = Some "1"%string
    /\ forall name, ~ In name injected ->
                    env !! name = os_environ (w_host w) !! name.
Proof.
  intros H. apply launch_process_spawns in H as (after & Ht & _).
  eexists. eexists. split; [exact Ht |]. split; [reflexivity |].
  unfold child_env.
  repeat split.
  1-4: repeat (first [ apply lookup_insert_eq
                     | rewrite lookup_insert_ne by discriminate ]).
  - apply lookup_insert_eq.
  - intros name Hn. unfold injected in Hn. simpl in Hn.
    rewrite !lookup_insert_ne by (intros <-; tauto). reflexivity.
Qed.

(** X3. [launch_process] closes its event loop exactly once, as its last
    effect, on every path that leaves it, returning or raising; while it
    is still inside the loop nothing has been closed. *)
Theorem loop_is_closed_on_every_exit self wd w r w' :
  launch_process self wd w = (r, w') ->
  exists delta,
    w_trace w' = w_trace w ++ delta
    /\ match r with
       | Blocked => count is_close delta = 0%nat
       | _ => count is_close delta = 1%nat
              /\ exists before, delta = before ++ [LoopClose]
       end.
Proof.
  intros H. apply launch_process_trace in H as (_ & mid & Hle & _ & Hr).
  assert (Hmid : count is_close mid = 0%nat)
    by (apply count_outside_loop; [now intros [] | exact Hle]).
  destruct r as [rc | e |].
  - destruct Hr as (Ht & _). eexists. split; [exact Ht |]. split.
    + rewrite !count_app, Hmid. reflexivity.
    + exists (launch_head wd w ++ mid
              ++ [CancelTask Update; ReturnCode rc; Save (w_trial w');
                  TaskDone Update Cancelled]).
      unfold wind_up. rewrite <- !app_assoc. reflexivity.
  - destruct Hr as (Ht & _). eexists. split; [exact Ht |]. split.
    + rewrite !count_app, Hmid. destruct e; reflexivity.
    + exists (launch_head wd w ++ mid ++ guidance_on e (w_trial w')
              ++ [SetStatus (status_after e); Save (w_trial w')]).
      rewrite <- !app_assoc. reflexivity.
  - destruct Hr as (Ht & _). eexists. split; [exact Ht |].
    rewrite !count_app, Hmid. reflexivity.
Qed.

(** X5. When [launch_process] returns, the last save, made by the
    cancelled heartbeat, holds the trial exactly as it is in memory, the
    collected output included, and the trial's status is still the one it
    was called with. *)
Theorem returning_run_is_fully_saved self wd w rc w' :
  launch_process self wd w = (Return rc, w') ->
  persisted (w_trace w') = Some (w_trial w')
  /\ Trial.status (w_trial w') = Trial.status (w_trial w).
Proof.
  intros H. apply launch_process_trace in H as (_ & mid & _ & _ & Hr).
  destruct Hr as (Ht & _ & _ & _ & _ & Hst). split; [| exact Hst].
  rewrite Ht, !persisted_app. reflexivity.
Qed.

(** ** Further properties: what the tasks save *)

Lemma dispatch_saves cap ev w w1 :
  dispatch cap ev w = (Return tt, w1) ->
  exists delta,
    w_trace w1 = w_trace w ++ delta
    /\ forall x, In (Save x) delta -> Trial.status x = Trial.status (w_trial w).
Proof.
  revert w1. dispatch_cases ev w.
  all: intros w1 H; try discriminate H; injection H as <-.
  all: simpl; trace_delta.
  all: intros x Hin; simpl in Hin;
    repeat match goal with
      | H : _ \/ _ |- _ => destruct H
      | H : False |- _ => contradiction
      | H : Save _ = Save _ |- _ => injection H as <-
      | H : _ = Save _ |- _ => discriminate H
      end; reflexivity.
Qed.

Lemma steps_saves cap w evs w2 :
  steps cap w evs w2 ->
  exists delta,
    w_trace w2 = w_trace w ++ delta
    /\ forall x, In (Save x) delta -> Trial.status x = Trial.status (w_trial w).
Proof.
  induction 1 as [w | w ev w1 evs w2 Hd Hs IH].
  - exists []. split; [now rewrite app_nil_r | intros x []].
  - destruct (dispatch_saves _ _ _ _ Hd) as (d1 & Ht1 & H1).
    destruct IH as (d2 & Ht2 & H2).
    apply dispatch_frame in Hd as (_ & _ & _ & _ & _ & _ & Hst & _).
    exists (d1 ++ d2). split; [rewrite Ht2, Ht1; now rewrite app_assoc |].
    intros x Hin. apply in_app_iff in Hin as [Hin | Hin].
    + now apply H1.
    + rewrite <- Hst. now apply H2.
Qed.

Lemma dispatch_heartbeats cap ev w w1 :
  dispatch cap ev w = (Return tt, w1) ->
  is_pending (update_task (w_loop w)) = true ->
  exists delta,
    w_trace w1 = w_trace w ++ delta
    /\ heartbeats delta = beats [ev]
    /\ count is_save delta = length (beats [ev])
    /\ Trial.last_heartbeat (w_trial w1)
       = match beats [ev] with
         | [] => Trial.last_heartbeat (w_trial w)
         | now :: _ => Some now
         end.
Proof.
  revert w1. dispatch_cases ev w.
  all: intros w1 H; try discriminate H; injection H as <-.
  all: intros Hp; try discriminate Hp.
  all: simpl; trace_delta.
  all: repeat split; reflexivity.
Qed.

Lemma heartbeats_app (a b : list action) :
  heartbeats (a ++ b) = heartbeats a ++ heartbeats b.
Proof. unfold heartbeats. apply omap_app. Qed.

Lemma beats_app (a b : list event) : beats (a ++ b) = beats a ++ beats b.
Proof. unfold beats. apply omap_app. Qed.

Lemma steps_heartbeats cap w evs w2 :
  steps cap w evs w2 ->
  is_pending (update_task (w_loop w)) = true ->
  exists delta,
    w_trace w2 = w_trace w ++ delta
    /\ heartbeats delta = beats evs
    /\ count is_save delta = length (beats evs)
    /\ Trial.last_heartbeat (w_trial w2)
       = match last (beats evs) with
         | Some now => Some now
         | None => Trial.last_heartbeat (w_trial w)
         end.
Proof.
  induction 1 as [w | w ev w1 evs w2 Hd Hs IH]; intros Hp.
  - exists []. rewrite app_nil_r. repeat split.
  - destruct (dispatch_heartbeats _ _ _ _ Hd Hp) as (d1 & Ht1 & Hb1 & Hc1 & Hl1).
    apply dispatch_frame in Hd as (_ & _ & _ & _ & _ & _ & _ & Hu).
    rewrite <- Hu in Hp.
    destruct (IH Hp) as (d2 & Ht2 & Hb2 & Hc2 & Hl2).
    exists (d1 ++ d2). split; [rewrite Ht2, Ht1; now rewrite app_assoc |].
    change (ev :: evs) with ([ev] ++ evs). rewrite beats_app.
    split; [now rewrite heartbeats_app, Hb1, Hb2 |].
    split; [rewrite count_app, length_app; lia |].
    rewrite Hl2, Hl1.
    destruct (beats evs) as [|b bs] eqn:Eb using rev_ind.
    + rewrite app_nil_r. destruct (beats [ev]) as [|n [|? ?]] eqn:E1;
        try reflexivity.
      destruct ev; discriminate E1.
    + rewrite app_assoc, !last_snoc. reflexivity.
Qed.

Lemma run_execute_saves cap wd env w r w' :
  run_until_complete (execute cap wd env) w = (r, w') ->
  exists consumed delta,
    match r with
    | Return _ => w_script w = consumed ++ w_script w'
    | Raise e => w_script w = consumed ++ Raised e :: w_script w'
    | Blocked => w_script w = consumed
    end
    /\ w_trace w' = w_trace w ++ delta
    /\ (forall x, In (Save x) delta ->
                  Trial.status x = Trial.status (w_trial w))
    /\ heartbeats delta = beats (after_spawn consumed)
    /\ count is_save delta
       = (length (beats (after_spawn consumed))
          + (if returned r then 1 else 0))%nat
    /\ Trial.last_heartbeat (w_trial w')
       = match last (beats (after_spawn consumed)) with
         | Some now => Some now
         | None => Trial.last_heartbeat (w_trial w)
         end.
Proof.
  intros H. apply run_execute_cases in H as (skipped & Hsk & [H | H]).
  - destruct H as (rest & -> & Hr).
    destruct (after_spawn_skipped skipped [] Hsk) as [Hnone _].
    exists skipped, [spawn_of wd env w]. rewrite Hnone.
    split; [destruct r as [rc | e |]; [contradiction | exact Hr | tauto] |].
    split; [reflexivity |].
    split; [intros x [Hx | []]; discriminate Hx |].
    destruct r as [rc | e |]; [contradiction | |]; repeat split.
  - destruct H as (after & consumed & rest & wm & Hscript & Hs & Hr).
    assert (Hfold : after_spawn (skipped ++ Spawned :: consumed) = consumed)
      by apply (after_spawn_skipped skipped consumed Hsk).
    destruct (steps_saves _ _ _ _ Hs) as (d & Ht & Hsv).
    destruct (steps_heartbeats _ _ _ _ Hs eq_refl) as (d' & Ht' & Hb & Hc & Hl).
    pose proof (steps_frame _ _ _ _ Hs) as (_ & _ & _ & _ & _ & _ & Hst & _).
    rewrite Ht in Ht'. apply app_inv_head in Ht'. subst d'.
    simpl in Ht, Hsv, Hl, Hst.
    exists (skipped ++ Spawned :: consumed). rewrite Hfold.
    destruct r as [rc | e |].
    + destruct Hr as (-> & _ & _ & ->).
      exists ([spawn_of wd env w] ++ d
                ++ [CancelTask Update; ReturnCode (returncode (w_loop wm));
                    Save (w_trial wm); TaskDone Update Cancelled]).
      split; [rewrite Hscript, <- app_assoc; reflexivity |].
      split; [simpl; rewrite Ht, <- !app_assoc; reflexivity |].
      split; [| split; [| split]].
      * intros x Hin. rewrite !in_app_iff in Hin.
        destruct Hin as [[Hx | []] | [Hin | Hin]].
        -- discriminate Hx.
        -- now apply Hsv.
        -- simpl in Hin.
           destruct Hin as [Hx | [Hx | [Hx | [Hx | []]]]]; try discriminate Hx.
           injection Hx as <-. exact Hst.
      * rewrite !heartbeats_app, Hb. simpl. now rewrite app_nil_r.
      * rewrite !count_app, Hc. simpl. unfold count. simpl. lia.
      * exact Hl.
    + destruct Hr as (-> & _ & ->).
      exists ([spawn_of wd env w] ++ d).
      split; [rewrite Hscript, <- app_assoc; reflexivity |].
      split; [simpl; rewrite Ht, <- !app_assoc; reflexivity |].
      split; [| split; [| split]].
      * intros x Hin. rewrite in_app_iff in Hin.
        destruct Hin as [[Hx | []] | Hin]; [discriminate Hx | now apply Hsv].
      * rewrite heartbeats_app, Hb. reflexivity.
      * rewrite count_app, Hc. simpl. unfold count. simpl. lia.
      * exact Hl.
    + destruct Hr as (-> & -> & _ & ->).
      exists ([spawn_of wd env w] ++ d).
      split; [exact Hscript |].
      split; [simpl; rewrite Ht, <- !app_assoc; reflexivity |].
      split; [| split; [| split]].
      * intros x Hin. rewrite in_app_iff in Hin.
        destruct Hin as [[Hx | []] | Hin]; [discriminate Hx | now apply Hsv].
      * rewrite heartbeats_app, Hb. reflexivity.
      * rewrite count_app, Hc. simpl. unfold count. simpl. lia.
      * exact Hl.
Qed.

(** X6. While [execute] supervises the child nothing but the trial's
    current state is saved: every snapshot that reaches the store before
    [run_until_complete] is left carries the status the trial had when
    the run began, so no completed, broken or suspended status is stored
    while the child is being supervised. *)
Theorem supervised_saves_keep_the_status cap wd env w r w' delta x :
  run_until_complete (execute cap wd env) w = (r, w') ->
  w_trace w' = w_trace w ++ delta ->
  In (Save x) delta ->
  Trial.status x = Trial.status (w_trial w).
Proof.
  intros H Hd Hin.
  apply run_execute_saves in H as (consumed & d & _ & Ht & Hsv & _).
  rewrite Ht in Hd. apply app_inv_head in Hd. subst d. now apply Hsv.
Qed.

(** X7. The heartbeat task writes one heartbeat per completed sleep, with
    the time of that sleep and in the same order; it saves once after
    each and once more when the run returns, and nothing else is saved
    during the run.  The trial's last heartbeat is the time of the last
    completed sleep, or unchanged when there was none. *)
Theorem one_heartbeat_per_sleep cap wd env w r w' :
  run_until_complete (execute cap wd env) w = (r, w') ->
  exists consumed delta,
    match r with
    | Return _ => w_script w = consumed ++ w_script w'
    | Raise e => w_script w = consumed ++ Raised e :: w_script w'
    | Blocked => w_script w = consumed
    end
    /\ w_trace w' = w_trace w ++ delta
    /\ heartbeats delta = beats (after_spawn consumed)
    /\ count is_save delta
       = (length (beats (after_spawn consumed))
          + (if returned r then 1 else 0))%nat
    /\ Trial.last_heartbeat (w_trial w')
       = match last (beats (after_spawn consumed)) with
         | Some now => Some now
         | None => Trial.last_heartbeat (w_trial w)
         end.
Proof.
  intros H.
  apply run_execute_saves in H as (consumed & d & Hsc & Ht & _ & Hb & Hc & Hl).
  exists consumed, d. repeat split; assumption.
Qed.

(** ** Further properties: a child that finishes is reported *)

Lemma dispatch_progress cap ev w w1 t :
  dispatch cap ev w = (Return tt, w1) ->
  t <> Update ->
  on_loop (task_state t (w_loop w)) = true ->
  on_loop (task_state t (w_loop w1)) = true
  /\ (done (task_state t (w_loop w)) = true ->
      done (task_state t (w_loop w1)) = true)
  /\ (ends t ev = true -> done (task_state t (w_loop w1)) = true).
Proof.
  revert w1. dispatch_cases ev w.
  all: intros w1 H; try discriminate H; injection H as <-.
  all: intros Hne Hon; try congruence; simpl in *; try discriminate Hon.
  all: repeat split; try (intros; assumption); try reflexivity;
    try (intros Hx; discriminate Hx).
Qed.

Lemma steps_progress cap w evs w2 t :
  steps cap w evs w2 ->
  t <> Update ->
  on_loop (task_state t (w_loop w)) = true ->
  on_loop (task_state t (w_loop w2)) = true
  /\ (done (task_state t (w_loop w)) = true \/ existsb (ends t) evs = true ->
      done (task_state t (w_loop w2)) = true).
Proof.
  induction 1 as [w | w ev w1 evs w2 Hd Hs IH]; intros Hne Hon.
  - split; [exact Hon |]. simpl. intros [H | H]; [exact H | discriminate H].
  - destruct (dispatch_progress _ _ _ _ t Hd Hne Hon) as (Hon1 & Hkeep & Hend).
    destruct (IH Hne Hon1) as (Hon2 & Hdone).
    split; [exact Hon2 |]. simpl. intros [H | H].
    + apply Hdone. left. now apply Hkeep.
    + apply orb_true_iff in H as [H | H].
      * apply Hdone. left. now apply Hend.
      * apply Hdone. now right.
Qed.

Lemma dispatch_returncode cap ev w w1 :
  dispatch cap ev w = (Return tt, w1) ->
  (is_pending (wait_task (w_loop w)) = true ->
   match ev with
   | ProcessExited rc =>
       returncode (w_loop w1) = Some rc /\ done (wait_task (w_loop w1)) = true
   | _ =>
       returncode (w_loop w1) = returncode (w_loop w)
       /\ is_pending (wait_task (w_loop w1)) = true
   end)
  /\ (done (wait_task (w_loop w)) = true ->
      returncode (w_loop w1) = returncode (w_loop w)
      /\ done (wait_task (w_loop w1)) = true).
Proof.
  revert w1. dispatch_cases ev w.
  all: intros w1 H; try discriminate H; injection H as <-.
  all: simpl; split; intros Hx; try discriminate Hx; split; reflexivity.
Qed.

Lemma steps_returncode_done cap w evs w2 :
  steps cap w evs w2 ->
  done (wait_task (w_loop w)) = true ->
  returncode (w_loop w2) = returncode (w_loop w).
Proof.
  induction 1 as [w | w ev w1 evs w2 Hd Hs IH]; intros Hdone;
    [reflexivity |].
  destruct (dispatch_returncode _ _ _ _ Hd) as (_ & Hk).
  destruct (Hk Hdone) as (Hrc & Hd1). rewrite (IH Hd1). exact Hrc.
Qed.

(** The exit code the loop records is that of the first exit. *)
Lemma steps_returncode cap w evs w2 :
  steps cap w evs w2 ->
  is_pending (wait_task (w_loop w)) = true ->
  returncode (w_loop w2)
  = match first_exit evs with
    | Some rc => Some rc
    | None => returncode (w_loop w)
    end
  /\ (first_exit evs = None -> is_pending (wait_task (w_loop w2)) = true).
Proof.
  induction 1 as [w | w ev w1 evs w2 Hd Hs IH]; intros Hp.
  - split; [reflexivity | intros _; exact Hp].
  - destruct (dispatch_returncode _ _ _ _ Hd) as (Hpend & _).
    specialize (Hpend Hp).
    destruct ev as [|s data eof|rc|now|e|s]; simpl.
    3: { destruct Hpend as (Hrc & Hdone). split; [| discriminate].
         rewrite (steps_returncode_done _ _ _ _ Hs Hdone). exact Hrc. }
    all: destruct Hpend as (Hrc & Hp1); destruct (IH Hp1) as (IH1 & IH2);
      rewrite IH1, Hrc; split; [reflexivity | exact IH2].
Qed.

Lemma first_exit_app (a b : list event) rc :
  first_exit a = Some rc -> first_exit (a ++ b) = Some rc.
Proof.
  induction a as [|ev a IH]; simpl; [discriminate |].
  destruct ev; auto.
Qed.

Lemma no_spawned_not_in skipped :
  no_spawned skipped = true -> existsb is_spawned skipped = false.
Proof.
  induction skipped as [|ev sk IH]; simpl; [reflexivity |].
  destruct ev; simpl; auto; discriminate.
Qed.

Lemma after_spawn_app skipped rest :
  no_spawned skipped = true ->
  after_spawn (skipped ++ Spawned :: rest) = rest.
Proof. intros H. now apply after_spawn_skipped. Qed.

Lemma pending_not_done s : is_pending s = true -> done s = false.
Proof. destruct s; simpl; congruence. Qed.

(** If nothing is raised into the loop, the spawn completes, both
    streams reach their end and the child exits, then
    [run_until_complete] returns, and what it returns is the exit code
    of the child's first exit. *)
Lemma run_execute_finishes cap wd env w rc :
  existsb is_raised (w_script w) = false ->
  existsb is_spawned (w_script w) = true ->
  existsb (ends LogStdout) (after_spawn (w_script w)) = true ->
  existsb (ends LogStderr) (after_spawn (w_script w)) = true ->
  first_exit (after_spawn (w_script w)) = Some rc ->
  exists w',
    run_until_complete (execute cap wd env) w = (Return (Some rc), w').
Proof.
  intros Hnr Hsp Hout Herr Hexit.
  destruct (run_until_complete (execute cap wd env) w) as [r w'] eqn:Hrun.
  exists w'. f_equal.
  apply run_execute_cases in Hrun as (skipped & Hsk & [H | H]).
  - exfalso. destruct H as (rest & _ & Hr).
    destruct r as [rc' | e |]; [exact Hr | |].
    + rewrite Hr, existsb_app in Hnr. simpl in Hnr.
      rewrite orb_true_r in Hnr. discriminate.
    + destruct Hr as [Hr _]. rewrite Hr in Hsp.
      rewrite (no_spawned_not_in _ Hsk) in Hsp. discriminate.
  - destruct H as (after & consumed & rest & wm & Hscript & Hs & Hr).
    rewrite Hscript, (after_spawn_app _ _ Hsk) in Hout, Herr, Hexit.
    assert (Hdone : forall t, t <> Update ->
                existsb (ends t) consumed = true ->
                done (task_state t (w_loop wm)) = true).
    { intros t Hne He.
      destruct (steps_progress _ _ _ _ t Hs Hne) as (_ & Hd).
      - destruct t; reflexivity.
      - apply Hd. now right. }
    destruct (steps_returncode _ _ _ _ Hs eq_refl) as (Hrc & Hstill).
    destruct r as [rc' | e |].
    + destruct Hr as (-> & Hall & -> & _). f_equal.
      destruct (first_exit consumed) as [c |] eqn:Efe.
      * rewrite (first_exit_app _ rest _ Efe) in Hexit. congruence.
      * exfalso. specialize (Hstill eq_refl).
        apply pending_not_done in Hstill.
        pose proof (tasks_done_each _ Hall ProcWait) as Hw. simpl in Hw.
        rewrite Hw in Hstill; congruence.
    + exfalso. destruct Hr as (-> & _). rewrite Hscript in Hnr.
      rewrite !existsb_app in Hnr. simpl in Hnr.
      rewrite existsb_app in Hnr. simpl in Hnr.
      rewrite !orb_true_r in Hnr. discriminate.
    + exfalso. destruct Hr as (-> & _ & Hnd & _).
      assert (H1 : done (task_state LogStdout (w_loop wm)) = true)
        by (apply Hdone; [discriminate | exact Hout]).
      assert (H2 : done (task_state LogStderr (w_loop wm)) = true)
        by (apply Hdone; [discriminate | exact Herr]).
      assert (H3 : done (task_state ProcWait (w_loop wm)) = true).
      { apply Hdone; [discriminate |].
        clear -Hexit. induction consumed as [|ev evs IH]; [discriminate |].
        destruct ev; simpl in *; auto. }
      unfold tasks_done in Hnd. simpl in H1, H2, H3.
      rewrite H1, H2, H3 in Hnd. discriminate.
Qed.

Lemma split_length (sep : ascii) (s : string) :
  length (Py.split sep s) = S (occurrences sep s).
Proof.
  induction s as [|c s IH]; [reflexivity |].
  simpl. destruct (Ascii.eqb c sep); simpl.
  - now rewrite IH.
  - pose proof (split_nonempty sep s) as Hn.
    destruct (Py.split sep s) as [|w ws]; [congruence |]. simpl in *. exact IH.
Qed.

(** X10. The child is always spawned with at least one argument: the
    argument vector has one element more than the command line has
    spaces, so an empty command line spawns the single empty argument. *)
Theorem argv_is_never_empty self wd w r w' :
  launch_process self wd w = (r, w') ->
  exists delta argv,
    w_trace w' = w_trace w ++ delta
    /\ spawned_argv delta = Some argv
    /\ length argv = S (occurrences " " (Trial.commandline (w_trial w)))
    /\ argv <> []
    /\ (Trial.commandline (w_trial w) = ""%string -> argv = [""%string]).
Proof.
  intros H. apply launch_process_spawns in H as (after & Ht & _).
  eexists. eexists. split; [exact Ht |]. split; [reflexivity |].
  split; [apply split_length |]. split; [apply split_nonempty |].
  intros ->. reflexivity.
Qed.

(** ** Further runs to evaluate *)

Lemma working_directory_is_ensured_witness :
  reserve_conflict (w_host echo_world) = None
  /\ consume a_consumer echo_world = (Return tt, echo_consumed)
  /\ exists delta,
      w_trace echo_consumed = w_trace echo_world ++ delta
      /\ w_dirs echo_world ⊆ w_dirs echo_consumed
      /\ count is_makedirs delta
         = (if bool_decide (working_dir_of a_consumer echo_world
                              ∈ w_dirs echo_world) then 0 else 1)%nat
      /\ forall argv cwd env,
           In (Spawn argv cwd env) delta ->
           cwd = working_dir_of a_consumer echo_world
           /\ working_dir_of a_consumer echo_world ∈ w_dirs echo_consumed.
Proof.
  assert (H0 : reserve_conflict (w_host echo_world) = None) by reflexivity.
  assert (H1 : consume a_consumer echo_world = (Return tt, echo_consumed))
    by (vm_compute; reflexivity).
  split; [exact H0 |]. split; [exact H1 |].
  destruct (working_directory_is_ensured _ _ _ _ H0 H1)
    as (delta & Ht & Hsub & _ & Hmk & _ & Hsp).
  exists delta. split; [exact Ht |]. split; [exact Hsub |].
  split; [exact Hmk |].
  intros argv cwd env Hin. destruct (Hsp argv cwd env Hin) as (Hc & Hin' & _).
  exact (conj Hc Hin').
Defined.

Lemma child_environment_witness :
  launch_process a_consumer a_dir echo_world = (Return (Some 0), echo_launched)
  /\ exists delta env,
      w_trace echo_launched = w_trace echo_world ++ delta
      /\ spawned_env delta = Some env
      /\ env !! "KLEIO_TRIAL_ID" = Some (Trial.id (w_trial echo_world))
      /\ env !! "PYTHONUNBUFFERED" = Some "1"%string
      /\ env !! "HOME" = os_environ (w_host echo_world) !! "HOME".
Proof.
  assert (H : launch_process a_consumer a_dir echo_world
              = (Return (Some 0), echo_launched)) by (vm_compute; reflexivity).
  split; [exact H |].
  destruct (child_environment _ _ _ _ _ H)
    as (delta & env & Ht & He & Hid & _ & _ & _ & Hpy & Hrest).
  exists delta, env. split; [exact Ht |]. split; [exact He |].
  split; [exact Hid |]. split; [exact Hpy |].
  apply Hrest. unfold injected. simpl.
  intros [Hx | [Hx | [Hx | [Hx | [Hx | [Hx | []]]]]]]; discriminate Hx.
Defined.

Lemma loop_is_closed_on_every_exit_witness :
  launch_process a_consumer a_dir
    (set_script [Spawned; Raised (Error "OSError")] idle_world)
  = (Raise (Error "OSError"), crashed)
  /\ exists delta,
      w_trace crashed
      = w_trace (set_script [Spawned; Raised (Error "OSError")] idle_world)
          ++ delta
      /\ count is_close delta = 1%nat
      /\ exists before, delta = before ++ [LoopClose].
Proof.
  assert (H : launch_process a_consumer a_dir
                (set_script [Spawned; Raised (Error "OSError")] idle_world)
              = (Raise (Error "OSError"), crashed)) by (vm_compute; reflexivity).
  split; [exact H |].
  exact (loop_is_closed_on_every_exit _ _ _ _ _ H).
Defined.

Lemma returning_run_is_fully_saved_witness :
  launch_process a_consumer a_dir echo_world = (Return (Some 0), echo_launched)
  /\ persisted (w_trace echo_launched) = Some (w_trial echo_launched)
  /\ Trial.status (w_trial echo_launched) = Trial.status (w_trial echo_world).
Proof.
  assert (H : launch_process a_consumer a_dir echo_world
              = (Return (Some 0), echo_launched)) by (vm_compute; reflexivity).
  split; [exact H |].
  exact (returning_run_is_fully_saved _ _ _ _ _ H).
Defined.

Lemma supervised_saves_keep_the_status_witness :
  run_until_complete (execute false a_dir ∅) echo_world
  = (Return (Some 0), echo_executed)
  /\ w_trace echo_executed = w_trace echo_world ++ w_trace echo_executed
  /\ In (Save (w_trial echo_executed)) (w_trace echo_executed)
  /\ Trial.status (w_trial echo_executed) = Trial.status (w_trial echo_world).
Proof.
  assert (H1 : run_until_complete (execute false a_dir ∅) echo_world
               = (Return (Some 0), echo_executed)) by (vm_compute; reflexivity).
  assert (H2 : w_trace echo_executed
               = w_trace echo_world ++ w_trace echo_executed)
    by (vm_compute; reflexivity).
  assert (H3 : In (Save (w_trial echo_executed)) (w_trace echo_executed)).
  { vm_compute. repeat (first [left; reflexivity | right]). }
  split; [exact H1 |]. split; [exact H2 |]. split; [exact H3 |].
  exact (supervised_saves_keep_the_status _ _ _ _ _ _ _ _ H1 H2 H3).
Defined.

Lemma one_heartbeat_per_sleep_witness :
  run_until_complete (execute false a_dir ∅) echo_world
  = (Return (Some 0), echo_executed)
  /\ exists consumed delta,
      w_script echo_world = consumed ++ w_script echo_executed
      /\ w_trace echo_executed = w_trace echo_world ++ delta
      /\ heartbeats delta = beats (after_spawn consumed)
      /\ count is_save delta
         = (length (beats (after_spawn consumed)) + 1)%nat
      /\ Trial.last_heartbeat (w_trial echo_executed)
         = match last (beats (after_spawn consumed)) with
           | Some now => Some now
           | None => Trial.last_heartbeat (w_trial echo_world)
           end.
Proof.
  assert (H : run_until_complete (execute false a_dir ∅) echo_world
              = (Return (Some 0), echo_executed)) by (vm_compute; reflexivity).
  split; [exact H |].
  exact (one_heartbeat_per_sleep _ _ _ _ _ _ H).
Defined.

Lemma argv_is_never_empty_witness :
  launch_process a_consumer a_dir (set_script [Spawned] idle_world)
  = (Blocked, still_launching)
  /\ exists delta argv,
      w_trace still_launching
      = w_trace (set_script [Spawned] idle_world) ++ delta
      /\ spawned_argv delta = Some argv
      /\ length argv = 2%nat
      /\ argv <> [].
Proof.
  assert (H : launch_process a_consumer a_dir (set_script [Spawned] idle_world)
              = (Blocked, still_launching)) by (vm_compute; reflexivity).
  split; [exact H |].
  destruct (argv_is_never_empty _ _ _ _ _ H)
    as (delta & argv & Ht & Ha & Hl & Hn & _).
  exists delta, argv. exact (conj Ht (conj Ha (conj Hl Hn))).
Defined.

(** ** Further properties: from the child's exit to the trial's status *)

(** X9. If the reservation succeeds, nothing is raised into the loop, the
    spawn completes, both streams reach their end and the child exits,
    then [consume] returns: it neither raises nor stays in the loop.  The
    exit code it reads is that of the child's exit, the trial ends
    completed when that code is 0 and broken otherwise, and the store
    holds the trial as it is in memory. *)
Theorem finished_child_is_reported self w rc :
  reserve_conflict (w_host w) = None ->
  existsb is_raised (w_script w) = false ->
  existsb is_spawned (w_script w) = true ->
  existsb (ends LogStdout) (after_spawn (w_script w)) = true ->
  existsb (ends LogStderr) (after_spawn (w_script w)) = true ->
  first_exit (after_spawn (w_script w)) = Some rc ->
  exists w',
    consume self w = (Return tt, w')
    /\ In (ReturnCode (Some rc)) (w_trace w')
    /\ Trial.status (w_trial w')
       = (if rc =? 0 then Trial.completed else Trial.broken)
    /\ persisted (w_trace w') = Some (w_trial w').
Proof.
  intros Hres Hnr Hsp Hout Herr Hexit.
  rewrite (consume_reserved _ _ Hres).
  destruct (launch_process self (working_dir_of self w) (prepared self w))
    as [r1 w2] eqn:Hl.
  pose proof Hl as Hu. rewrite launch_process_unfold in Hu.
  destruct (run_execute_finishes (capture self) (working_dir_of self w)
              (child_env (w_host (prepared self w)) (w_trial (prepared self w)))
              (loop_ready (prepared self w)) rc Hnr Hsp Hout Herr Hexit)
    as (w3 & Hrun).
  rewrite Hrun in Hu. injection Hu as <- <-.
  apply launch_process_trace in Hl as (_ & mid & _ & _ & Hr).
  destruct Hr as (Ht & _).
  eexists. split; [reflexivity |].
  assert (Hin : In (ReturnCode (Some rc)) (w_trace (add_trace LoopClose w3))).
  { rewrite Ht. rewrite !in_app_iff. right. right. right.
    unfold wind_up. simpl. auto. }
  destruct rc as [|p|p]; simpl; rewrite persisted_app; simpl;
    (split; [rewrite in_app_iff; left; exact Hin | split; reflexivity]).
Qed.

(** X11. A refused reservation starts nothing: no directory is created,
    no child is spawned, no event of the script is consumed and the loop
    is neither set up nor closed; the two error messages, the second
    being the store's own, are all that is logged. *)
Theorem refused_reservation_starts_nothing self w msg r w' :
  reserve_conflict (w_host w) = Some msg ->
  consume self w = (r, w') ->
  w_dirs w' = w_dirs w /\ w_script w' = w_script w /\ w_loop w' = w_loop w
  /\ exists delta,
      w_trace w' = w_trace w ++ delta
      /\ count is_spawn delta = 0%nat
      /\ count is_makedirs delta = 0%nat
      /\ count is_close delta = 0%nat
      /\ exists rest,
          delta = [Log LError ("Failed to reserve '"
                               +:+ Trial.short_id (w_trial w) +:+ "'");
                   Log LError msg] ++ rest
          /\ forall lvl text, ~ In (Log lvl text) rest.
Proof.
  intros Hres H. rewrite (consume_refused _ _ _ Hres) in H.
  injection H as <- <-. unfold refused. simpl.
  split; [reflexivity |]. split; [reflexivity |]. split; [reflexivity |].
  eexists. split; [reflexivity |].
  destruct (bool_decide _);
    (split; [reflexivity |]; split; [reflexivity |]; split; [reflexivity |];
     eexists; split; [reflexivity |]; intros lvl text Hin; simpl in Hin;
     intuition discriminate).
Qed.

Lemma finished_child_is_reported_witness :
  reserve_conflict (w_host failing_world) = None
  /\ existsb is_raised (w_script failing_world) = false
  /\ existsb is_spawned (w_script failing_world) = true
  /\ existsb (ends LogStdout) (after_spawn (w_script failing_world)) = true
  /\ existsb (ends LogStderr) (after_spawn (w_script failing_world)) = true
  /\ first_exit (after_spawn (w_script failing_world)) = Some 1
  /\ exists w',
      consume a_consumer failing_world = (Return tt, w')
      /\ In (ReturnCode (Some 1)) (w_trace w')
      /\ Trial.status (w_trial w') = Trial.broken
      /\ persisted (w_trace w') = Some (w_trial w').
Proof.
  assert (H0 : reserve_conflict (w_host failing_world) = None) by reflexivity.
  assert (H1 : existsb is_raised (w_script failing_world) = false)
    by reflexivity.
  assert (H2 : existsb is_spawned (w_script failing_world) = true)
    by reflexivity.
  assert (H3 : existsb (ends LogStdout) (after_spawn (w_script failing_world))
               = true) by reflexivity.
  assert (H4 : existsb (ends LogStderr) (after_spawn (w_script failing_world))
               = true) by reflexivity.
  assert (H5 : first_exit (after_spawn (w_script failing_world)) = Some 1)
    by reflexivity.
  split; [exact H0 |]. split; [exact H1 |]. split; [exact H2 |].
  split; [exact H3 |]. split; [exact H4 |]. split; [exact H5 |].
  exact (finished_child_is_reported a_consumer failing_world 1
           H0 H1 H2 H3 H4 H5).
Defined.

Lemma refused_reservation_starts_nothing_witness :
  reserve_conflict
    (w_host (a_world refusing_host (a_trial "echo hi" Trial.pending) echo_script))
  = Some "Trial is already reserved"%string
  /\ exists w',
      consume a_consumer
        (a_world refusing_host (a_trial "echo hi" Trial.pending) echo_script)
      = (Raise (SystemExit 0), w')
      /\ w_dirs w' = ∅ /\ w_script w' = echo_script /\ w_loop w' = new_loop.
Proof.
  assert (H0 : reserve_conflict
                 (w_host (a_world refusing_host
                            (a_trial "echo hi" Trial.pending) echo_script))
               = Some "Trial is already reserved"%string) by reflexivity.
  pose proof (consume_refused a_consumer _ _ H0) as H1.
  split; [exact H0 |]. eexists. split; [exact H1 |].
  destruct (refused_reservation_starts_nothing _ _ _ _ _ H0 H1)
    as (Hd & Hs & Hl & _).
  exact (conj Hd (conj Hs Hl)).
Defined.
